(** * Screen Connect: the peer-session lifecycle of the React component [App]

    The component keeps seven [useState] cells and four [useRef] cells and
    reacts to button clicks and to events of the PeerJS objects it created
    (peers, data connections, media calls), of the capture stream and of the
    clipboard.  This development embeds the handlers of the component as
    functions on an explicit state and the component itself as a labelled
    transition function [step].

    Two facts of React shape the embedding:
    - a handler reads the [useState] cells of the render that created it.
      [stopScreenShare] reads [stream]; it is therefore a function of the
      captured value, which is the current one only for handlers created by
      the current render (button clicks).  Handlers registered inside the
      effect, and the [onended] handler of a capture stream, keep the value
      of the render that registered them;
    - [useRef] cells are shared mutable objects and are always read live. *)

From stdpp Require Import base list strings.

Open Scope string_scope.

(** ** The cells of the component *)

Inductive Mode := landing | share | view.
Inductive Status := disconnected | connecting | connected.

#[global] Instance Mode_eq_dec : EqDecision Mode.
Proof. solve_decision. Defined.
#[global] Instance Status_eq_dec : EqDecision Status.
Proof. solve_decision. Defined.

(** [useState]: mode, peerId, remotePeerId, connectionStatus, copied, error,
    stream.  A [MediaStream] is named by its index in the store below. *)
Record Hooks := mkHooks {
  mode : Mode;
  peerId : string;
  remotePeerId : string;
  connectionStatus : Status;
  copied : bool;
  error : option string;
  stream : option nat
}.

(** [useRef]: peerRef, videoRef, connectionRef, callRef.  [videoRef] is
    [None] while no video element is mounted (landing page) and
    [Some srcObject] otherwise. *)
Record Refs := mkRefs {
  peerRef : option nat;
  videoRef : option (option nat);
  connectionRef : option nat;
  callRef : option nat
}.

(** ** The objects the component creates *)

(** A [Peer] with the handlers the effect registered on it: they depend on
    the [mode] of the render that ran the effect, and their
    [stopScreenShare] on its [stream]. *)
Record PeerObj := mkPeer {
  peer_mode : Mode;
  peer_stream : option nat;
  peer_destroyed : bool
}.

(** A data connection: [inbound] ones carry the handlers of the sharing side
    (registered in the effect), [outbound] ones those of [connectToPeer]. *)
Inductive ConnRole := inbound | outbound.
Inductive ConnPhase := conn_pending | conn_open | conn_closed.

#[global] Instance ConnRole_eq_dec : EqDecision ConnRole.
Proof. solve_decision. Defined.
#[global] Instance ConnPhase_eq_dec : EqDecision ConnPhase.
Proof. solve_decision. Defined.

Record ConnObj := mkConn {
  conn_role : ConnRole;
  conn_stream : option nat;
  conn_peer : string;
  conn_phase : ConnPhase
}.

(** A media call: [placed] by the sharer or [received] by the viewer. *)
Inductive CallRole := placed | received.

Record CallObj := mkCall {
  call_role : CallRole;
  call_answered : bool;
  call_closed : bool
}.

(** A [MediaStream]: its [onended] handler when it is a local capture (the
    [stream] value its [stopScreenShare] captured), and whether its tracks
    have been stopped. *)
Record StreamObj := mkStream {
  onended : option (option nat);
  tracks_stopped : bool
}.

(** A [getDisplayMedia] promise [startScreenShare] is suspended on, with the
    [stream] value of the render whose [startScreenShare] it is. *)
Record AcqObj := mkAcq {
  acq_stream : option nat;
  acq_settled : bool
}.

Record World := mkWorld {
  peers : list PeerObj;
  conns : list ConnObj;
  calls : list CallObj;
  streams : list StreamObj;
  acquires : list AcqObj;
  clipboard : list string;
  clip_pending : nat;
  copied_timers : nat
}.

(** The whole component: its cells, the objects, and the cleanup closure
    returned by the last run of the effect (the effect's [peer] and the
    [stream] its [stopScreenShare] captured). *)
Record State := mkState {
  hooks : Hooks;
  refs : Refs;
  world : World;
  cleanup : option (nat * option nat)
}.

Definition initial : State :=
  mkState (mkHooks landing "" "" disconnected false None None)
          (mkRefs None None None None)
          (mkWorld [] [] [] [] [] [] 0 0)
          None.

(** ** Setters *)

Definition upd_hooks (f : Hooks → Hooks) (s : State) : State :=
  mkState (f (hooks s)) (refs s) (world s) (cleanup s).
Definition upd_refs (f : Refs → Refs) (s : State) : State :=
  mkState (hooks s) (f (refs s)) (world s) (cleanup s).
Definition upd_world (f : World → World) (s : State) : State :=
  mkState (hooks s) (refs s) (f (world s)) (cleanup s).
Definition set_cleanup (c : option (nat * option nat)) (s : State) : State :=
  mkState (hooks s) (refs s) (world s) c.

Definition setMode (m : Mode) (s : State) : State :=
  upd_hooks (λ h, mkHooks m (peerId h) (remotePeerId h) (connectionStatus h)
                          (copied h) (error h) (stream h)) s.
Definition setPeerId (i : string) (s : State) : State :=
  upd_hooks (λ h, mkHooks (mode h) i (remotePeerId h) (connectionStatus h)
                          (copied h) (error h) (stream h)) s.
Definition setRemotePeerId (r : string) (s : State) : State :=
  upd_hooks (λ h, mkHooks (mode h) (peerId h) r (connectionStatus h)
                          (copied h) (error h) (stream h)) s.
Definition setConnectionStatus (c : Status) (s : State) : State :=
  upd_hooks (λ h, mkHooks (mode h) (peerId h) (remotePeerId h) c
                          (copied h) (error h) (stream h)) s.
Definition setCopied (b : bool) (s : State) : State :=
  upd_hooks (λ h, mkHooks (mode h) (peerId h) (remotePeerId h)
                          (connectionStatus h) b (error h) (stream h)) s.
Definition setError (e : option string) (s : State) : State :=
  upd_hooks (λ h, mkHooks (mode h) (peerId h) (remotePeerId h)
                          (connectionStatus h) (copied h) e (stream h)) s.
Definition setStream (m : option nat) (s : State) : State :=
  upd_hooks (λ h, mkHooks (mode h) (peerId h) (remotePeerId h)
                          (connectionStatus h) (copied h) (error h) m) s.

Definition set_peerRef (p : option nat) (s : State) : State :=
  upd_refs (λ r, mkRefs p (videoRef r) (connectionRef r) (callRef r)) s.
Definition set_videoRef (v : option (option nat)) : State → State :=
  upd_refs (λ r, mkRefs (peerRef r) v (connectionRef r) (callRef r)).
Definition set_connectionRef (c : option nat) (s : State) : State :=
  upd_refs (λ r, mkRefs (peerRef r) (videoRef r) c (callRef r)) s.
Definition set_callRef (k : option nat) (s : State) : State :=
  upd_refs (λ r, mkRefs (peerRef r) (videoRef r) (connectionRef r) k) s.

Definition upd_peers (f : list PeerObj → list PeerObj) (s : State) : State :=
  upd_world (λ w, mkWorld (f (peers w)) (conns w) (calls w) (streams w)
                          (acquires w) (clipboard w) (clip_pending w)
                          (copied_timers w)) s.
Definition upd_conns (f : list ConnObj → list ConnObj) (s : State) : State :=
  upd_world (λ w, mkWorld (peers w) (f (conns w)) (calls w) (streams w)
                          (acquires w) (clipboard w) (clip_pending w)
                          (copied_timers w)) s.
Definition upd_calls (f : list CallObj → list CallObj) (s : State) : State :=
  upd_world (λ w, mkWorld (peers w) (conns w) (f (calls w)) (streams w)
                          (acquires w) (clipboard w) (clip_pending w)
                          (copied_timers w)) s.
Definition upd_streams (f : list StreamObj → list StreamObj) (s : State) : State :=
  upd_world (λ w, mkWorld (peers w) (conns w) (calls w) (f (streams w))
                          (acquires w) (clipboard w) (clip_pending w)
                          (copied_timers w)) s.
Definition upd_acquires (f : list AcqObj → list AcqObj) (s : State) : State :=
  upd_world (λ w, mkWorld (peers w) (conns w) (calls w) (streams w)
                          (f (acquires w)) (clipboard w) (clip_pending w)
                          (copied_timers w)) s.
Definition upd_clipboard (f : list string → list string) (s : State) : State :=
  upd_world (λ w, mkWorld (peers w) (conns w) (calls w) (streams w)
                          (acquires w) (f (clipboard w)) (clip_pending w)
                          (copied_timers w)) s.
Definition set_clip_pending (n : nat) (s : State) : State :=
  upd_world (λ w, mkWorld (peers w) (conns w) (calls w) (streams w)
                          (acquires w) (clipboard w) n (copied_timers w)) s.
Definition set_copied_timers (n : nat) (s : State) : State :=
  upd_world (λ w, mkWorld (peers w) (conns w) (calls w) (streams w)
                          (acquires w) (clipboard w) (clip_pending w) n) s.

(** A new object is appended to its store; its name is the length of the
    store before. *)
Definition alloc {A} (x : A) (l : list A) : list A := (l ++ [x])%list.

(** ** Methods of the objects *)

(** [peer.destroy()] *)
Definition destroyPeer (p : nat) (s : State) : State :=
  upd_peers (alter (λ o, mkPeer (peer_mode o) (peer_stream o) true) p) s.

(** [conn.close()], and the transport moving a connection to a phase *)
Definition set_phase (ph : ConnPhase) (o : ConnObj) : ConnObj :=
  mkConn (conn_role o) (conn_stream o) (conn_peer o) ph.
Definition closeConn (c : nat) (s : State) : State :=
  upd_conns (alter (set_phase conn_closed) c) s.

(** [call.close()] *)
Definition closeCall (k : nat) (s : State) : State :=
  upd_calls (alter (λ o, mkCall (call_role o) (call_answered o) true) k) s.

(** [stream.getTracks().forEach(track => track.stop())] *)
Definition stopTracks (m : nat) (s : State) : State :=
  upd_streams (alter (λ o, mkStream (onended o) true) m) s.

(** Setters and methods unfold when applied. *)
Arguments upd_hooks _ _ /.
Arguments upd_refs _ _ /.
Arguments upd_world _ _ /.
Arguments set_cleanup _ _ /.
Arguments setMode _ _ /.
Arguments setPeerId _ _ /.
Arguments setRemotePeerId _ _ /.
Arguments setConnectionStatus _ _ /.
Arguments setCopied _ _ /.
Arguments setError _ _ /.
Arguments setStream _ _ /.
Arguments set_peerRef _ _ /.
Arguments set_videoRef _ _ /.
Arguments set_connectionRef _ _ /.
Arguments set_callRef _ _ /.
Arguments upd_peers _ _ /.
Arguments upd_conns _ _ /.
Arguments upd_calls _ _ /.
Arguments upd_streams _ _ /.
Arguments upd_acquires _ _ /.
Arguments upd_clipboard _ _ /.
Arguments set_clip_pending _ _ /.
Arguments set_copied_timers _ _ /.
Arguments destroyPeer _ _ /.
Arguments closeConn _ _ /.
Arguments closeCall _ _ /.
Arguments stopTracks _ _ /.

(** ** Observations on the objects *)

Definition peer_live (s : State) (p : nat) : Prop :=
  ∃ o, peers (world s) !! p = Some o ∧ peer_destroyed o = false.
Definition peer_is_destroyed (s : State) (p : nat) : Prop :=
  ∃ o, peers (world s) !! p = Some o ∧ peer_destroyed o = true.
Definition conn_is_closed (s : State) (c : nat) : Prop :=
  ∃ o, conns (world s) !! c = Some o ∧ conn_phase o = conn_closed.
Definition channel_live (s : State) (c : nat) : Prop :=
  ∃ o, conns (world s) !! c = Some o ∧ conn_role o = outbound
       ∧ conn_phase o ≠ conn_closed.
Definition call_is_closed (s : State) (k : nat) : Prop :=
  ∃ o, calls (world s) !! k = Some o ∧ call_closed o = true.
Definition tracks_are_stopped (s : State) (m : nat) : Prop :=
  ∃ o, streams (world s) !! m = Some o ∧ tracks_stopped o = true.

(** ** The handlers of the component (src/unnamed/part_000) *)

(** [stopScreenShare], as a function of the [stream] value [cap] of the
    render that created the closure. *)
Definition stopScreenShare (cap : option nat) (s : State) : State :=
  let s1 := match cap with
            | Some m => setStream None (stopTracks m s)
            | None => s
            end in
  let s2 := match videoRef (refs s1) with
            | Some (Some m) => set_videoRef (Some None) (stopTracks m s1)
            | _ => s1
            end in
  match callRef (refs s2) with
  | Some k => set_callRef None (closeCall k s2)
  | None => s2
  end.

(** [startScreenShare] up to its [await]: the old stream is stopped and the
    request for the display is pending. *)
Definition startScreenShare (cap : option nat) (s : State) : State :=
  upd_acquires (alloc (mkAcq cap false)) (stopScreenShare cap s).

(** [connectionRef.current && connectionRef.current.open && peerRef.current] *)
Definition viewer_ready (s : State) : option (nat * string) :=
  match connectionRef (refs s), peerRef (refs s) with
  | Some c, Some p =>
      match conns (world s) !! c with
      | Some o => if decide (conn_phase o = conn_open)
                  then Some (p, conn_peer o) else None
      | None => None
      end
  | _, _ => None
  end.

(** [startScreenShare] after the [await] when the promise is fulfilled with
    a new stream, for the closure that captured [cap]. *)
Definition startScreenShare_resolved (cap : option nat) (s : State) : State :=
  let m := length (streams (world s)) in
  let s1 := upd_streams (alloc (mkStream (Some cap) false)) s in
  let s2 := setStream (Some m) s1 in
  let s3 := match videoRef (refs s2) with
            | Some _ => set_videoRef (Some (Some m)) s2
            | None => s2
            end in
  match viewer_ready s3 with
  | Some _ =>
      let k := length (calls (world s3)) in
      set_callRef (Some k)
        (upd_calls (alloc (mkCall placed false false)) s3)
  | None =>
      setError (Some "No viewer connected. Please wait for someone to connect before sharing.") s3
  end.

(** The [catch] of [startScreenShare], when the promise is rejected. *)
Definition startScreenShare_rejected (s : State) : State :=
  setError (Some "Failed to access screen. Please make sure you grant permission.") s.

(** [connectToPeer], reading [remotePeerId] of the current render. *)
Definition connectToPeer (s : State) : State :=
  let r := remotePeerId (hooks s) in
  if decide (r = "") then s else
  match peerRef (refs s) with
  | None => s
  | Some _ =>
      let s1 := setError None (setConnectionStatus connecting s) in
      let s2 := match connectionRef (refs s1) with
                | Some c => closeConn c s1
                | None => s1
                end in
      let c' := length (conns (world s2)) in
      set_connectionRef (Some c')
        (upd_conns (alloc (mkConn outbound None r conn_pending)) s2)
  end.

(** [copyPeerId]: the text is handed to the clipboard and the promise of
    [writeText] is pending. *)
Definition copyPeerId (s : State) : State :=
  let i := peerId (hooks s) in
  if decide (i = "") then s else
  set_clip_pending (S (clip_pending (world s)))
    (upd_clipboard (alloc i) s).

(** [disconnect], created by the current render. *)
Definition disconnect (s : State) : State :=
  let s1 := match connectionRef (refs s) with
            | Some c => set_connectionRef None (closeConn c s)
            | None => s
            end in
  let s2 := match callRef (refs s1) with
            | Some k => set_callRef None (closeCall k s1)
            | None => s1
            end in
  let s3 := stopScreenShare (stream (hooks s)) s2 in
  setRemotePeerId ""
    (setError None (setMode landing (setConnectionStatus disconnected s3))).

(** ** The effect [useEffect(..., [mode])] *)

(** The function the effect returns, for the effect's [peer] and the
    [stream] its [stopScreenShare] captured. *)
Definition effect_cleanup (p : nat) (cap : option nat) (s : State) : State :=
  let s1 := match connectionRef (refs s) with
            | Some c => closeConn c s
            | None => s
            end in
  let s2 := match callRef (refs s1) with
            | Some k => closeCall k s1
            | None => s1
            end in
  destroyPeer p (stopScreenShare cap s2).

(** The body of the effect in a render with [mode = m] and [stream = cap]. *)
Definition effect_body (m : Mode) (cap : option nat) (s : State) : State :=
  if decide (m = landing) then set_cleanup None s else
  let s1 := match peerRef (refs s) with
            | Some p => destroyPeer p s
            | None => s
            end in
  let p' := length (peers (world s1)) in
  set_cleanup (Some (p', cap))
    (set_peerRef (Some p')
       (upd_peers (alloc (mkPeer m cap false)) s1)).

(** A render after a handler that started in mode [old]: when [mode] has
    changed, the video element of the old page is unmounted and the one of
    the new page (if any) mounted, then the previous cleanup and the body
    run, the body with the cells of this render. *)
Definition commit (old : Mode) (s : State) : State :=
  let m := mode (hooks s) in
  if decide (m = old) then s else
  let cap := stream (hooks s) in
  let s1 := set_videoRef (if decide (m = landing) then None else Some None) s in
  let s2 := match cleanup s1 with
            | Some (p, c) => effect_cleanup p c s1
            | None => s1
            end in
  effect_body m cap s2.

(** Unmounting the component: the video element goes, then the cleanup
    runs. *)
Definition unmount (s : State) : State :=
  let s1 := set_videoRef None s in
  match cleanup s1 with
  | Some (p, c) => set_cleanup None (effect_cleanup p c s1)
  | None => s1
  end.

(** ** Events *)

Inductive Event :=
  (* buttons and the input of the rendered page *)
  | ClickShare | ClickView
  | TypeRemoteId (r : string) | ClickConnect
  | ClickStartSharing | ClickStopSharing
  | ClickDisconnect | ClickCopy
  (* peer.on('open' | 'error' | 'connection' | 'call') *)
  | PeerOpen (p : nat) (id : string)
  | PeerError (p : nat) (ty : string)
  | PeerConnection (p : nat) (remote : string)
  | PeerCall (p : nat)
  (* conn.on('open' | 'close' | 'error') *)
  | ConnOpen (c : nat) | ConnClose (c : nat) | ConnError (c : nat) (err : string)
  (* call.on('stream' | 'close' | 'error') *)
  | CallStream (k : nat) | CallClose (k : nat) | CallError (k : nat) (err : string)
  (* getDisplayMedia settles; a captured track ends *)
  | AcquireOk (a : nat) | AcquireFail (a : nat)
  | TrackEnded (m : nat)
  (* clipboard.writeText settles; the 2000 ms timer fires *)
  | ClipboardOk | ClipboardFail | CopiedTimeout.

(** Handlers the effect registered on a peer. *)
Definition on_peer_connection (cap : option nat) (remote : string) (s : State) : State :=
  let c := length (conns (world s)) in
  set_connectionRef (Some c)
    (upd_conns (alloc (mkConn inbound cap remote conn_pending)) s).

Definition on_peer_call_view (s : State) : State :=
  let k := length (calls (world s)) in
  set_callRef (Some k)
    (upd_calls (alloc (mkCall received true false)) s).

Definition on_peer (p : nat) (f : PeerObj → State → State) (s : State) : State :=
  match peers (world s) !! p with
  | Some o => if peer_destroyed o then s else f o s
  | None => s
  end.

(** Handlers of a connection. *)
Definition on_conn_close (o : ConnObj) (s : State) : State :=
  match conn_role o with
  | inbound =>
      stopScreenShare (conn_stream o) (setConnectionStatus disconnected s)
  | outbound =>
      let s1 := setConnectionStatus disconnected s in
      match videoRef (refs s1) with
      | Some _ => set_videoRef (Some None) s1
      | None => s1
      end
  end.

Definition on_conn_error (o : ConnObj) (err : string) (s : State) : State :=
  match conn_role o with
  | inbound => setError (Some ("Connection error: " +:+ err)) s
  | outbound =>
      setConnectionStatus disconnected
        (setError (Some ("Connection error: " +:+ err)) s)
  end.

(** Handlers of a call. *)
Definition on_call_stream (s : State) : State :=
  let m := length (streams (world s)) in
  let s1 := upd_streams (alloc (mkStream None false)) s in
  match videoRef (refs s1) with
  | Some _ => set_videoRef (Some (Some m)) s1
  | None => s1
  end.

Definition on_call_close (s : State) : State :=
  let s1 := match videoRef (refs s) with
            | Some _ => set_videoRef (Some None) s
            | None => s
            end in
  setConnectionStatus disconnected s1.

(** The reaction of the component to one event, before it renders again.

    A click is taken only when the page of the current render shows the
    control: the two role buttons on the landing page; the input and
    "Connect" on the view page while [connectionStatus] is disconnected;
    "Start Sharing" on the share page while connected without a stream;
    "Stop Sharing" on the share page while there is a stream; "Disconnect" on
    both pages; the copy button on the share page.

    An event of an object runs the handler registered on that object.  The
    environment is free except for what the transports guarantee: a
    destroyed peer emits nothing, a connection opens only while it is
    pending, a promise settles once, and a track ends only while it has not
    been stopped. *)
Definition handle (s : State) (e : Event) : State :=
  let h := hooks s in
  match e with
  | ClickShare => if decide (mode h = landing) then setMode share s else s
  | ClickView => if decide (mode h = landing) then setMode view s else s
  | TypeRemoteId r =>
      if decide (mode h = view ∧ connectionStatus h = disconnected)
      then setRemotePeerId r s else s
  | ClickConnect =>
      if decide (mode h = view ∧ connectionStatus h = disconnected)
      then connectToPeer s else s
  | ClickStartSharing =>
      if decide (mode h = share ∧ connectionStatus h = connected ∧ stream h = None)
      then startScreenShare (stream h) s else s
  | ClickStopSharing =>
      if decide (mode h = share ∧ stream h ≠ None)
      then stopScreenShare (stream h) s else s
  | ClickDisconnect =>
      if decide (mode h ≠ landing) then disconnect s else s
  | ClickCopy =>
      if decide (mode h = share) then copyPeerId s else s
  | PeerOpen p id =>
      on_peer p (λ _ s, setError None (setPeerId id s)) s
  | PeerError p ty =>
      on_peer p (λ _ s, setConnectionStatus disconnected
                          (setError (Some ("Connection error: " +:+ ty)) s)) s
  | PeerConnection p remote =>
      on_peer p (λ o s, match peer_mode o with
                        | share => on_peer_connection (peer_stream o) remote s
                        | _ => s
                        end) s
  | PeerCall p =>
      on_peer p (λ o s, match peer_mode o with
                        | view => on_peer_call_view s
                        | _ => s
                        end) s
  | ConnOpen c =>
      match conns (world s) !! c with
      | Some o =>
          if decide (conn_phase o = conn_pending)
          then setConnectionStatus connected
                 (upd_conns (alter (set_phase conn_open) c) s)
          else s
      | None => s
      end
  | ConnClose c =>
      match conns (world s) !! c with
      | Some o => on_conn_close o (closeConn c s)
      | None => s
      end
  | ConnError c err =>
      match conns (world s) !! c with
      | Some o => on_conn_error o err s
      | None => s
      end
  | CallStream k =>
      match calls (world s) !! k with
      | Some o => match call_role o with
                  | received => on_call_stream s
                  | placed => s
                  end
      | None => s
      end
  | CallClose k =>
      match calls (world s) !! k with
      | Some o => match call_role o with
                  | received => on_call_close (closeCall k s)
                  | placed => closeCall k s
                  end
      | None => s
      end
  | CallError k err =>
      match calls (world s) !! k with
      | Some _ => setError (Some ("Call error: " +:+ err)) s
      | None => s
      end
  | AcquireOk a =>
      match acquires (world s) !! a with
      | Some o =>
          if acq_settled o then s else
          startScreenShare_resolved (acq_stream o)
            (upd_acquires (alter (λ o, mkAcq (acq_stream o) true) a) s)
      | None => s
      end
  | AcquireFail a =>
      match acquires (world s) !! a with
      | Some o =>
          if acq_settled o then s else
          startScreenShare_rejected
            (upd_acquires (alter (λ o, mkAcq (acq_stream o) true) a) s)
      | None => s
      end
  | TrackEnded m =>
      match streams (world s) !! m with
      | Some o =>
          if tracks_stopped o then s else
          match onended o with
          | Some cap => stopScreenShare cap (stopTracks m s)
          | None => stopTracks m s
          end
      | None => s
      end
  | ClipboardOk =>
      match clip_pending (world s) with
      | S n => set_copied_timers (S (copied_timers (world s)))
                 (set_clip_pending n (setCopied true s))
      | O => s
      end
  | ClipboardFail =>
      match clip_pending (world s) with
      | S n => set_clip_pending n
                 (setError (Some "Failed to copy to clipboard") s)
      | O => s
      end
  | CopiedTimeout =>
      match copied_timers (world s) with
      | S n => set_copied_timers n (setCopied false s)
      | O => s
      end
  end.

Definition step (s : State) (e : Event) : State :=
  commit (mode (hooks s)) (handle s e).

Definition run (s : State) (es : list Event) : State :=
  foldl step s es.

(** ** The first version of the component (src/src/App.tsx)

    It has no [stream] cell and no [callRef]; only its [connectToPeer] is
    needed below.  A connection is its remote identifier and its phase. *)
Module Legacy.

Record State := mkState {
  mode : Mode;
  peerId : string;
  remotePeerId : string;
  connectionStatus : Status;
  copied : bool;
  error : option string;
  peerRef : option nat;
  videoRef : option (option nat);
  connectionRef : option nat;
  conns : list (string * ConnPhase)
}.

Definition connectToPeer (s : State) : State :=
  let r := remotePeerId s in
  if decide (r = "") then s else
  match peerRef s with
  | None => s
  | Some _ =>
      mkState (mode s) (peerId s) r connecting (copied s) (error s)
              (peerRef s) (videoRef s) (Some (length (conns s)))
              (alloc (r, conn_pending) (conns s))
  end.

Definition viewer_waiting : State :=
  mkState view "me" "" disconnected false None (Some 0) (Some None) None [].

End Legacy.

(** The handlers are reasoned about through their lemmas. *)
Arguments stopScreenShare : simpl never.
Arguments startScreenShare : simpl never.
Arguments startScreenShare_resolved : simpl never.
Arguments startScreenShare_rejected : simpl never.
Arguments connectToPeer : simpl never.
Arguments copyPeerId : simpl never.
Arguments disconnect : simpl never.
Arguments effect_cleanup : simpl never.
Arguments effect_body : simpl never.
Arguments commit : simpl never.
Arguments unmount : simpl never.
Arguments handle : simpl never.
Arguments step : simpl never.
Arguments run : simpl never.

(** ** Sessions used as examples *)

(** The sharer is selected, its peer opens as "abc", a viewer's connection
    arrives and opens. *)
Definition sharer_connects : list Event :=
  [ClickShare; PeerOpen 0 "abc"; PeerConnection 0 "viewer"; ConnOpen 0].

Definition sharer_connected : State := run initial sharer_connects.

(** ... "Start Sharing" is clicked and the display is being asked for. *)
Definition sharer_acquiring : State :=
  step sharer_connected ClickStartSharing.

(** ... and granted: Connected+Sharing. *)
Definition sharer_sharing : State :=
  step sharer_acquiring (AcquireOk 0).

(** The whole session up to Connected+Sharing. *)
Definition sharing_session : list Event :=
  (sharer_connects ++ [ClickStartSharing; AcquireOk 0])%list.

(** ... and the session is ended with "Disconnect". *)
Definition session_over : State :=
  run initial (sharing_session ++ [ClickDisconnect])%list.

(** The viewer is selected and its peer opens as "me". *)
Definition viewer_waiting : State :=
  run initial [ClickView; PeerOpen 0 "me"].

(** ... the identifier "abc" is typed, "Connect" clicked, the connection
    opens. *)
Definition viewer_connected : State :=
  run viewer_waiting [TypeRemoteId "abc"; ClickConnect; ConnOpen 0].

(** "Disconnect" is clicked while the display is being asked for, and the
    request is granted afterwards. *)
Definition late_grant : list Event :=
  [ClickShare; PeerOpen 0 "abc"; PeerConnection 0 "viewer"; ConnOpen 0;
   ClickStartSharing; ClickDisconnect; AcquireOk 0].

(** ** Properties of states and of event sequences *)

(** A capture handle is held only in the sharer role. *)
Definition capture_only_sharer (s : State) : Prop :=
  stream (hooks s) ≠ None → mode (hooks s) = share.

(** The event settles a request for the display with a stream. *)
Definition grants (e : Event) : bool :=
  match e with AcquireOk _ => true | _ => false end.

(** Every grant of the display in [es], run from [s], arrives while the
    component is in share mode. *)
Fixpoint grants_in_share (s : State) (es : list Event) : bool :=
  match es with
  | [] => true
  | e :: es' =>
      (if grants e then bool_decide (mode (hooks s) = share) else true)
      && grants_in_share (step s e) es'
  end.

(** The idle state: the landing page with every cell that a session uses at
    its default and no object referenced. *)
Definition idle (s : State) : Prop :=
  mode (hooks s) = landing
  ∧ connectionStatus (hooks s) = disconnected
  ∧ error (hooks s) = None
  ∧ remotePeerId (hooks s) = ""
  ∧ stream (hooks s) = None
  ∧ connectionRef (refs s) = None
  ∧ callRef (refs s) = None
  ∧ videoRef (refs s) = None.

(** The cells and stores the links of a session are made of. *)
Definition links_of (s : State) :=
  (mode (hooks s), peerRef (refs s), connectionRef (refs s), cleanup s,
   peers (world s), conns (world s)).

(** Every peer that is not destroyed is the one [peerRef] names, the one the
    pending cleanup will destroy, and was created for the current mode;
    every connection made by [connectToPeer] that is not closed is the one
    [connectionRef] names, in view mode; and outside the landing page a
    cleanup is pending for the peer [peerRef] names. *)
Definition links_ok
    (l : Mode * option nat * option nat * option (nat * option nat)
         * list PeerObj * list ConnObj) : Prop :=
  let '(m, pr, cr, cl, ps, cs) := l in
  (∀ p o, ps !! p = Some o → peer_destroyed o = false →
          pr = Some p ∧ (∃ c, cl = Some (p, c)) ∧ peer_mode o = m)
  ∧ (∀ c o, cs !! c = Some o → conn_role o = outbound →
            conn_phase o ≠ conn_closed → cr = Some c ∧ m = view)
  ∧ (m ≠ landing → ∃ p c, cl = Some (p, c) ∧ pr = Some p).

Definition links_inv (s : State) : Prop := links_ok (links_of s).


(** What a render needs when [mode] has changed: every peer still alive is
    the one of the pending cleanup and no connection made by
    [connectToPeer] is still open. *)
Definition before_render (s : State) : Prop :=
  (∀ p o, peers (world s) !! p = Some o → peer_destroyed o = false →
          ∃ c, cleanup s = Some (p, c))
  ∧ (∀ c o, conns (world s) !! c = Some o → conn_role o = outbound →
            conn_phase o = conn_closed).

(** The references of a state and the sizes of the stores they point into. *)
Definition wf_shape (s : State) :=
  (connectionRef (refs s), callRef (refs s), stream (hooks s),
   videoRef (refs s), peerRef (refs s), cleanup s,
   length (conns (world s)), length (calls (world s)),
   length (streams (world s)), length (peers (world s))).

(** Every reference names an object of its store. *)
Definition refs_wf (s : State) : Prop :=
  (∀ c, connectionRef (refs s) = Some c → c < length (conns (world s)))
  ∧ (∀ k, callRef (refs s) = Some k → k < length (calls (world s)))
  ∧ (∀ m, stream (hooks s) = Some m → m < length (streams (world s)))
  ∧ (∀ m, videoRef (refs s) = Some (Some m) → m < length (streams (world s)))
  ∧ (∀ p, peerRef (refs s) = Some p → p < length (peers (world s)))
  ∧ (∀ p c, cleanup s = Some (p, c) → p < length (peers (world s))).

(** The closures stored with the objects, and the pending cleanup. *)
Definition captures_of (s : State) :=
  (peers (world s), conns (world s), streams (world s), acquires (world s),
   cleanup s).

(** Every stored closure captured [stream = null]. *)
Definition captures_null (s : State) : Prop :=
  Forall (λ o, peer_stream o = None) (peers (world s))
  ∧ Forall (λ o, conn_stream o = None) (conns (world s))
  ∧ Forall (λ o, onended o = None ∨ onended o = Some None) (streams (world s))
  ∧ Forall (λ o, acq_stream o = None) (acquires (world s))
  ∧ (∀ p c, cleanup s = Some (p, c) → c = None).

(** A viewer of the first version that is connected to "abc" and has typed
    another identifier. *)
Definition legacy_viewer_connected : Legacy.State :=
  Legacy.mkState view "me" "xyz" connected false (Some "old") (Some 0)
                 (Some None) (Some 0) [("abc", conn_open)].

(** What a session owns: on the landing page nothing is referenced and no
    cleanup is pending; on the other pages a video element is mounted; and
    the peer of a pending cleanup is alive. *)
Definition session_inv (s : State) : Prop :=
  (mode (hooks s) = landing →
     cleanup s = None ∧ connectionRef (refs s) = None
     ∧ callRef (refs s) = None ∧ videoRef (refs s) = None)
  ∧ (mode (hooks s) ≠ landing → videoRef (refs s) ≠ None)
  ∧ (∀ p c, cleanup s = Some (p, c) → peer_live s p).

(** The four stores of objects that can be released. *)
Definition stores_of (s : State) :=
  (peers (world s), conns (world s), calls (world s), streams (world s)).

(** Everything released in [s] is released in [s']. *)
Definition release_kept (s s' : State) : Prop :=
  (∀ p, peer_is_destroyed s p → peer_is_destroyed s' p)
  ∧ (∀ c, conn_is_closed s c → conn_is_closed s' c)
  ∧ (∀ k, call_is_closed s k → call_is_closed s' k)
  ∧ (∀ m, tracks_are_stopped s m → tracks_are_stopped s' m).
(** * Proofs *)

Ltac cases := repeat (first [ case_decide | case_match ]).

(** ** [stopScreenShare] *)

Lemma stopScreenShare_hooks cap s :
  hooks (stopScreenShare cap s)
  = hooks (match cap with Some _ => setStream None s | None => s end).
Proof. unfold stopScreenShare. cases; reflexivity. Qed.

Lemma stopScreenShare_mode cap s :
  mode (hooks (stopScreenShare cap s)) = mode (hooks s).
Proof. rewrite stopScreenShare_hooks. by destruct cap. Qed.

Lemma stopScreenShare_status cap s :
  connectionStatus (hooks (stopScreenShare cap s)) = connectionStatus (hooks s).
Proof. rewrite stopScreenShare_hooks. by destruct cap. Qed.

Lemma stopScreenShare_stream cap s :
  stream (hooks (stopScreenShare cap s))
  = match cap with Some _ => None | None => stream (hooks s) end.
Proof. rewrite stopScreenShare_hooks. by destruct cap. Qed.

Lemma stopScreenShare_callRef cap s :
  callRef (refs (stopScreenShare cap s)) = None.
Proof.
  unfold stopScreenShare.
  destruct cap; simpl; destruct (videoRef (refs s)) as [[?|]|]; simpl;
    destruct (callRef (refs s)) eqn:E; simpl; congruence.
Qed.

Lemma stopScreenShare_links cap s :
  links_of (stopScreenShare cap s) = links_of s.
Proof. unfold stopScreenShare. cases; reflexivity. Qed.

(** ** The effect *)

Lemma effect_cleanup_hooks p cap s :
  hooks (effect_cleanup p cap s) = hooks (stopScreenShare cap s).
Proof.
  unfold effect_cleanup. simpl. rewrite !stopScreenShare_hooks.
  destruct cap, (connectionRef (refs s)); simpl;
    destruct (callRef (refs s)); reflexivity.
Qed.

Lemma effect_body_hooks m cap s : hooks (effect_body m cap s) = hooks s.
Proof. unfold effect_body. cases; reflexivity. Qed.

Lemma commit_hooks old s :
  hooks (commit old s) = hooks s
  ∨ hooks (commit old s) = hooks (setStream None s).
Proof.
  unfold commit. case_decide; [by left|].
  rewrite effect_body_hooks.
  destruct (cleanup _) as [[p [m|]]|]; rewrite ?effect_cleanup_hooks,
    ?stopScreenShare_hooks; auto.
Qed.

Lemma commit_mode old s : mode (hooks (commit old s)) = mode (hooks s).
Proof. by destruct (commit_hooks old s) as [-> | ->]. Qed.

Lemma commit_stream old s :
  stream (hooks (commit old s)) = None
  ∨ stream (hooks (commit old s)) = stream (hooks s).
Proof. destruct (commit_hooks old s) as [-> | ->]; auto. Qed.

Lemma commit_same s s' :
  mode (hooks s') = mode (hooks s) → commit (mode (hooks s)) s' = s'.
Proof. intros H. unfold commit. rewrite H. case_decide; congruence. Qed.

(** ** C1: the capture handle and the sharer role *)

Lemma handle_capture s e :
  capture_only_sharer s →
  (grants e = true → mode (hooks s) = share) →
  capture_only_sharer (handle s e).
Proof.
  unfold capture_only_sharer. intros I A.
  destruct e; simpl in A; unfold handle;
    unfold on_peer, on_conn_close, on_conn_error, on_call_stream, on_call_close,
      on_peer_connection, on_peer_call_view, startScreenShare,
      startScreenShare_resolved, startScreenShare_rejected, connectToPeer,
      copyPeerId, disconnect;
    cases; simpl; rewrite ?stopScreenShare_mode, ?stopScreenShare_stream; simpl;
    cases; intuition congruence.
Qed.

Lemma step_capture s e :
  capture_only_sharer s →
  (grants e = true → mode (hooks s) = share) →
  capture_only_sharer (step s e).
Proof.
  intros I A. pose proof (handle_capture s e I A) as H.
  unfold step, capture_only_sharer in *. rewrite commit_mode.
  destruct (commit_stream (mode (hooks s)) (handle s e)) as [Hs|Hs];
    rewrite Hs; intuition congruence.
Qed.

Lemma run_capture es : ∀ s,
  capture_only_sharer s → grants_in_share s es = true →
  capture_only_sharer (run s es).
Proof.
  induction es as [|e es IH]; intros s I G; [exact I|].
  simpl in G. apply andb_prop in G as [Ge Ges].
  change (run s (e :: es)) with (run (step s e) es).
  apply IH; [|exact Ges].
  apply step_capture; [exact I|]. intros Hg. rewrite Hg in Ge.
  by apply bool_decide_eq_true in Ge.
Qed.




(** ** C3: [connectToPeer] without a remote identifier *)

(** C3, as stated, fails: with an empty remote identifier [connectToPeer]
    returns at once and reports nothing, [error] stays null. *)
Lemma connectToPeer_reports_nothing :
  remotePeerId (hooks viewer_waiting) = ""
  ∧ error (hooks (connectToPeer viewer_waiting)) = None
  ∧ error (hooks (step viewer_waiting ClickConnect)) = None.
Proof. repeat split; vm_compute; reflexivity. Qed.

(** C3 (amended): when [connectToPeer] is invoked with an empty remote
    identifier it returns silently, in both versions of the component: no
    connection is created, no error is reported and no cell changes, so
    [connectionStatus] stays as it was. *)
Theorem connectToPeer_empty (s : State) (l : Legacy.State) :
  remotePeerId (hooks s) = "" →
  Legacy.remotePeerId l = "" →
  connectToPeer s = s ∧ Legacy.connectToPeer l = l.
Proof.
  intros Hs Hl. unfold connectToPeer, Legacy.connectToPeer.
  rewrite Hs, Hl. split; reflexivity.
Qed.

Lemma connectToPeer_empty_witness :
  connectToPeer viewer_waiting = viewer_waiting
  ∧ Legacy.connectToPeer Legacy.viewer_waiting = Legacy.viewer_waiting.
Proof.
  apply (connectToPeer_empty viewer_waiting Legacy.viewer_waiting);
    vm_compute; reflexivity.
Defined.

(** The "Connect" button does the same: the state, with its store of
    connections, is unchanged. *)
Lemma click_connect_empty s :
  remotePeerId (hooks s) = "" → step s ClickConnect = s.
Proof.
  intros H. unfold step, handle. case_decide.
  - unfold connectToPeer. rewrite H. by apply commit_same.
  - by apply commit_same.
Qed.

(** ** C4: the display is refused *)

(** C4: when the request for the display is refused while the sharer is
    connected and holds no capture, the refusal becomes the error message,
    the capture handle stays null and [connectionStatus] stays connected. *)
Theorem acquire_refused (s : State) (a : nat) (o : AcqObj) :
  mode (hooks s) = share →
  connectionStatus (hooks s) = connected →
  stream (hooks s) = None →
  acquires (world s) !! a = Some o →
  acq_settled o = false →
  let s' := step s (AcquireFail a) in
  error (hooks s')
    = Some "Failed to access screen. Please make sure you grant permission."
  ∧ stream (hooks s') = None
  ∧ connectionStatus (hooks s') = connected
  ∧ mode (hooks s') = share
  ∧ refs s' = refs s.
Proof.
  intros Hm Hc Hs Ha Hp s'. subst s'.
  unfold step, handle. rewrite Ha, Hp.
  rewrite commit_same by reflexivity.
  unfold startScreenShare_rejected. simpl. by destruct (refs s).
Qed.

Lemma acquire_refused_witness :
  let s' := step sharer_acquiring (AcquireFail 0) in
  error (hooks s')
    = Some "Failed to access screen. Please make sure you grant permission."
  ∧ stream (hooks s') = None
  ∧ connectionStatus (hooks s') = connected
  ∧ mode (hooks s') = share
  ∧ refs s' = refs sharer_acquiring.
Proof.
  apply (acquire_refused sharer_acquiring 0 (mkAcq None false));
    vm_compute; reflexivity.
Defined.

(** ** C5: an error event on a connection *)

(** C5, as stated, fails in the viewer role: the error handler of
    [connectToPeer] sets [connectionStatus] to disconnected by itself. *)
Lemma viewer_error_disconnects :
  connectionStatus (hooks viewer_connected) = connected
  ∧ connectionStatus (hooks (step viewer_connected (ConnError 0 "lost")))
    = disconnected.
Proof. split; vm_compute; reflexivity. Qed.

(** C5 (amended): an error event on a connection sets [error] and closes
    nothing, no object and no reference changes; on the sharer's side
    [connectionStatus] is unchanged, on the viewer's side the handler sets it
    to disconnected.  A close event sets it to disconnected on both sides. *)
Theorem conn_error_policy (s : State) (c : nat) (o : ConnObj) (err : string) :
  conns (world s) !! c = Some o →
  let s' := step s (ConnError c err) in
  error (hooks s') = Some ("Connection error: " +:+ err)
  ∧ world s' = world s
  ∧ refs s' = refs s
  ∧ mode (hooks s') = mode (hooks s)
  ∧ connectionStatus (hooks s')
    = match conn_role o with
      | inbound => connectionStatus (hooks s)
      | outbound => disconnected
      end
  ∧ connectionStatus (hooks (step s (ConnClose c))) = disconnected.
Proof.
  intros Hc s'. subst s'. unfold step, handle. rewrite Hc.
  rewrite !commit_same.
  - unfold on_conn_error, on_conn_close.
    destruct (conn_role o); simpl; rewrite ?stopScreenShare_status;
      cases; repeat split; try reflexivity; by destruct (refs s).
  - unfold on_conn_close. destruct (conn_role o); simpl;
      rewrite ?stopScreenShare_mode; cases; reflexivity.
  - unfold on_conn_error. destruct (conn_role o); reflexivity.
Qed.

Lemma conn_error_policy_witness :
  let s' := step sharer_sharing (ConnError 0 "lost") in
  error (hooks s') = Some "Connection error: lost"
  ∧ world s' = world sharer_sharing
  ∧ refs s' = refs sharer_sharing
  ∧ mode (hooks s') = share
  ∧ connectionStatus (hooks s') = connected
  ∧ connectionStatus (hooks (step sharer_sharing (ConnClose 0))) = disconnected.
Proof.
  apply (conn_error_policy sharer_sharing 0
           (mkConn inbound None "viewer" conn_open) "lost").
  vm_compute; reflexivity.
Defined.

(** ** C10: [copyPeerId] without an identifier *)

(** C10: with an empty [peerId], [copyPeerId] does nothing: nothing is
    written to the clipboard and the state, with [copied] and [error], is
    unchanged; so is it when the click is taken through [step]. *)
Theorem copyPeerId_empty (s : State) :
  peerId (hooks s) = "" →
  copyPeerId s = s ∧ step s ClickCopy = s.
Proof.
  intros H.
  assert (copyPeerId s = s) as E by (unfold copyPeerId; by rewrite H).
  split; [exact E|].
  unfold step, handle. case_decide; rewrite ?E; by apply commit_same.
Qed.

Lemma copyPeerId_empty_witness :
  copyPeerId (step initial ClickShare) = step initial ClickShare
  ∧ step (step initial ClickShare) ClickCopy = step initial ClickShare.
Proof.
  apply (copyPeerId_empty (step initial ClickShare)). vm_compute; reflexivity.
Defined.

(** ** C8: [disconnect] on the idle state *)

Ltac open_state s :=
  destruct s as [[?m ?i ?r ?c ?k ?e ?st] [?pr ?vr ?cr ?kr]
                 [?ps ?cs ?ks ?ss ?aq ?cb ?cp ?ct] ?cl].

(** [disconnect] is idempotent from every state. *)
Lemma disconnect_idempotent s : disconnect (disconnect s) = disconnect s.
Proof.
  open_state s. destruct cr, kr, st, vr as [[?|]|]; vm_compute; reflexivity.
Qed.

(** C8: from the idle state [disconnect] changes nothing, once or twice in a
    row; it is a total function and leaves [error] null. *)
Theorem disconnect_idle (s : State) :
  idle s →
  disconnect s = s
  ∧ disconnect (disconnect s) = s
  ∧ error (hooks (disconnect (disconnect s))) = None.
Proof.
  intros (Hm & Hc & He & Hr & Hs & Hcr & Hkr & Hvr).
  assert (disconnect s = s) as E.
  { open_state s. simpl in *. subst. reflexivity. }
  rewrite !E. auto.
Qed.

Lemma disconnect_idle_witness :
  disconnect session_over = session_over
  ∧ disconnect (disconnect session_over) = session_over
  ∧ error (hooks (disconnect (disconnect session_over))) = None.
Proof.
  apply (disconnect_idle session_over). repeat split; vm_compute; reflexivity.
Defined.

(** ** C2 and C6: teardown by handlers that captured an older render *)

(** A close event on a sharer-side connection whose handlers captured
    [stream = null] leaves the [stream] cell as it is. *)
Lemma conn_close_keeps_stream s c o :
  conns (world s) !! c = Some o →
  conn_role o = inbound →
  conn_stream o = None →
  stream (hooks (step s (ConnClose c))) = stream (hooks s).
Proof.
  intros Hc Hr Hs. unfold step, handle. rewrite Hc.
  rewrite commit_same.
  - unfold on_conn_close. rewrite Hr, stopScreenShare_stream, Hs. reflexivity.
  - unfold on_conn_close. rewrite Hr, stopScreenShare_mode. reflexivity.
Qed.

(** The end of a track whose [onended] handler captured [stream = null]
    leaves the [stream] cell as it is. *)
Lemma track_ended_keeps_stream s m o :
  streams (world s) !! m = Some o →
  onended o = Some None →
  stream (hooks (step s (TrackEnded m))) = stream (hooks s).
Proof.
  intros Hm Ho. unfold step, handle. rewrite Hm, Ho.
  destruct (tracks_stopped o).
  - by rewrite commit_same.
  - rewrite commit_same; by rewrite ?stopScreenShare_mode, ?stopScreenShare_stream.
Qed.

(** C2, on the code: the connection closes while the sharer is connected and
    sharing.  [connectionStatus] becomes disconnected, the call is closed and
    the tracks are stopped, but the [stream] cell still holds the handle: the
    close handler was registered by the effect and its [stopScreenShare]
    reads the [stream] of that render, which was null. *)
Theorem link_closed_while_sharing :
  connectionStatus (hooks sharer_sharing) = connected
  ∧ stream (hooks sharer_sharing) = Some 0
  ∧ callRef (refs sharer_sharing) = Some 0
  ∧ let s' := step sharer_sharing (ConnClose 0) in
    connectionStatus (hooks s') = disconnected
    ∧ call_is_closed s' 0
    ∧ callRef (refs s') = None
    ∧ tracks_are_stopped s' 0
    ∧ videoRef (refs s') = Some None
    ∧ stream (hooks s') = Some 0.
Proof.
  repeat split; try (vm_compute; reflexivity);
    eexists; split; vm_compute; reflexivity.
Qed.

(** C6, on the code: the captured track ends while the sharer is connected
    and sharing.  The call is closed and [connectionStatus] stays connected,
    but the [stream] cell still holds the handle, whereas the "Stop Sharing"
    button clears it: the [onended] handler belongs to the render in which
    sharing was started, whose [stream] was null. *)
Theorem track_ended_while_sharing :
  connectionStatus (hooks sharer_sharing) = connected
  ∧ stream (hooks sharer_sharing) = Some 0
  ∧ callRef (refs sharer_sharing) = Some 0
  ∧ (let s' := step sharer_sharing (TrackEnded 0) in
     connectionStatus (hooks s') = connected
     ∧ call_is_closed s' 0
     ∧ callRef (refs s') = None
     ∧ tracks_are_stopped s' 0
     ∧ videoRef (refs s') = Some None
     ∧ stream (hooks s') = Some 0)
  ∧ (let s' := step sharer_sharing ClickStopSharing in
     connectionStatus (hooks s') = connected
     ∧ call_is_closed s' 0
     ∧ tracks_are_stopped s' 0
     ∧ stream (hooks s') = None).
Proof.
  repeat split; try (vm_compute; reflexivity);
    eexists; split; vm_compute; reflexivity.
Qed.

(** ** The closures of a session captured a null [stream] *)

Lemma Forall_alloc {A} (P : A → Prop) (x : A) (l : list A) :
  Forall P l → P x → Forall P (alloc x l).
Proof. intros Hl Hx. unfold alloc. apply Forall_app_2; [done|]. by constructor. Qed.

Lemma captures_same s s' :
  captures_of s' = captures_of s → captures_null s → captures_null s'.
Proof.
  unfold captures_of, captures_null. intros H.
  injection H as -> -> -> -> ->. done.
Qed.

Ltac cap_small :=
  let C := fresh "C" in
  intros C; destruct C as (?C & ?C & ?C & ?C & ?C);
  unfold captures_null; simpl;
  repeat split; try done;
  try (apply Forall_alter; [done|by intros []]);
  try (apply Forall_alloc; [done|simpl; auto]).

Lemma closeConn_captures c s : captures_null s → captures_null (closeConn c s).
Proof. cap_small. Qed.
Lemma stopTracks_captures m s : captures_null s → captures_null (stopTracks m s).
Proof. cap_small. Qed.
Lemma destroyPeer_captures p s : captures_null s → captures_null (destroyPeer p s).
Proof. cap_small. Qed.

Lemma stopScreenShare_captures cap s :
  captures_null s → captures_null (stopScreenShare cap s).
Proof.
  intros C. unfold stopScreenShare.
  set (s1 := match cap with Some m => _ | None => s end).
  assert (captures_null s1) as C1.
  { subst s1. destruct cap; [|done].
    by apply (captures_same (stopTracks n s)), stopTracks_captures. }
  clearbody s1.
  set (s2 := match videoRef (refs s1) with Some (Some m) => _ | _ => s1 end).
  assert (captures_null s2) as C2.
  { subst s2. destruct (videoRef (refs s1)) as [[m|]|]; try done.
    by apply (captures_same (stopTracks m s1)), stopTracks_captures. }
  clearbody s2.
  destruct (callRef (refs s2)); [|done]. by apply (captures_same s2).
Qed.

Lemma startScreenShare_captures s :
  captures_null s → captures_null (startScreenShare None s).
Proof.
  intros C. unfold startScreenShare.
  apply (stopScreenShare_captures None) in C. revert C. cap_small.
Qed.

Lemma startScreenShare_resolved_captures s :
  captures_null s → captures_null (startScreenShare_resolved None s).
Proof.
  intros C. unfold startScreenShare_resolved.
  set (s3 := match videoRef _ with Some _ => _ | None => _ end).
  assert (captures_null s3) as C3.
  { subst s3. revert C. simpl. destruct (videoRef (refs s)); cap_small. }
  clearbody s3. destruct (viewer_ready s3); by apply (captures_same s3).
Qed.

Lemma connectToPeer_captures s :
  captures_null s → captures_null (connectToPeer s).
Proof.
  intros C. unfold connectToPeer. case_decide; [done|].
  destruct (peerRef (refs s)); [|done].
  set (s1 := setError None (setConnectionStatus connecting s)).
  assert (captures_null s1) as C1 by by apply (captures_same s).
  clearbody s1.
  set (s2 := match connectionRef (refs s1) with Some c => _ | None => s1 end).
  assert (captures_null s2) as C2.
  { subst s2. destruct (connectionRef (refs s1)); [|done].
    by apply closeConn_captures. }
  clearbody s2. revert C2. cap_small.
Qed.

Lemma disconnect_captures s : captures_null s → captures_null (disconnect s).
Proof.
  intros C. unfold disconnect.
  set (s1 := match connectionRef (refs s) with Some c => _ | None => s end).
  assert (captures_null s1) as C1.
  { subst s1. destruct (connectionRef (refs s)); [|done].
    by apply (captures_same (closeConn n s)), closeConn_captures. }
  clearbody s1.
  set (s2 := match callRef (refs s1) with Some k => _ | None => s1 end).
  assert (captures_null s2) as C2.
  { subst s2. destruct (callRef (refs s1)); [|done]. by apply (captures_same s1). }
  clearbody s2.
  apply (captures_same (stopScreenShare (stream (hooks s)) s2)); [done|].
  by apply stopScreenShare_captures.
Qed.

Lemma effect_cleanup_captures p cap s :
  captures_null s → captures_null (effect_cleanup p cap s).
Proof.
  intros C. unfold effect_cleanup.
  set (s1 := match connectionRef (refs s) with Some c => _ | None => s end).
  assert (captures_null s1) as C1.
  { subst s1. destruct (connectionRef (refs s)); [|done].
    by apply closeConn_captures. }
  clearbody s1.
  set (s2 := match callRef (refs s1) with Some k => _ | None => s1 end).
  assert (captures_null s2) as C2.
  { subst s2. destruct (callRef (refs s1)); [|done]. by apply (captures_same s1). }
  clearbody s2. by apply destroyPeer_captures, stopScreenShare_captures.
Qed.

Lemma effect_body_captures m cap s :
  (m ≠ landing → cap = None) →
  captures_null s → captures_null (effect_body m cap s).
Proof.
  intros Hcap C. unfold effect_body. case_decide.
  - revert C. cap_small.
  - rewrite (Hcap H).
    set (s1 := match peerRef (refs s) with Some p => _ | None => s end).
    assert (captures_null s1) as C1.
    { subst s1. destruct (peerRef (refs s)); [|done].
      by apply destroyPeer_captures. }
    clearbody s1. revert C1. cap_small. intros ? ? [= _ <-]. done.
Qed.

Lemma commit_captures old s :
  (mode (hooks s) ≠ old → mode (hooks s) ≠ landing → stream (hooks s) = None) →
  captures_null s → captures_null (commit old s).
Proof.
  intros Hst C. unfold commit. case_decide as Hm; [done|].
  apply effect_body_captures; [by apply Hst|].
  set (s1 := set_videoRef _ s).
  assert (captures_null s1) as C1 by by apply (captures_same s).
  clearbody s1.
  destruct (cleanup s1) as [[p c]|]; [|done]. by apply effect_cleanup_captures.
Qed.

Lemma on_peer_captures p f s :
  (∀ o s', peers (world s') !! p = Some o → captures_null s' →
           captures_null (f o s')) →
  captures_null s → captures_null (on_peer p f s).
Proof.
  intros H C. unfold on_peer.
  destruct (peers (world s) !! p) as [o|] eqn:E; [|done].
  destruct (peer_destroyed o); [done|]. by apply H.
Qed.

Lemma handle_captures s e :
  captures_null s → captures_null (handle s e).
Proof.
  intros C. destruct e; unfold handle.
  - (* ClickShare *) case_decide; [|done]. by apply (captures_same s).
  - (* ClickView *) case_decide; [|done]. by apply (captures_same s).
  - (* TypeRemoteId *) case_decide; [|done]. by apply (captures_same s).
  - (* ClickConnect *) case_decide; [|done]. by apply connectToPeer_captures.
  - (* ClickStartSharing *)
    case_decide as H; [|done]. destruct H as (_ & _ & ->).
    by apply startScreenShare_captures.
  - (* ClickStopSharing *) case_decide; [|done]. by apply stopScreenShare_captures.
  - (* ClickDisconnect *) case_decide; [|done]. by apply disconnect_captures.
  - (* ClickCopy *)
    case_decide; [|done]. unfold copyPeerId. case_decide; [done|].
    by apply (captures_same s).
  - (* PeerOpen *)
    apply on_peer_captures; [|done]. intros _ s' _. by apply (captures_same s').
  - (* PeerError *)
    apply on_peer_captures; [|done]. intros _ s' _. by apply (captures_same s').
  - (* PeerConnection *)
    apply on_peer_captures; [|done]. intros o s' Ho C'.
    destruct (peer_mode o); try done. unfold on_peer_connection.
    assert (peer_stream o = None) as ->.
    { destruct C' as (Cp & _). by apply (Forall_lookup_1 _ _ _ _ Cp Ho). }
    revert C'. cap_small.
  - (* PeerCall *)
    apply on_peer_captures; [|done]. intros o s' _ C'.
    destruct (peer_mode o); by apply (captures_same s').
  - (* ConnOpen *)
    destruct (conns (world s) !! c); [|done]. case_decide; [|done].
    revert C. cap_small.
  - (* ConnClose *)
    destruct (conns (world s) !! c) as [o|]; [|done].
    apply (closeConn_captures c) in C. unfold on_conn_close.
    destruct (conn_role o).
    + by apply stopScreenShare_captures, (captures_same (closeConn c s)).
    + destruct (videoRef _); by apply (captures_same (closeConn c s)).
  - (* ConnError *)
    destruct (conns (world s) !! c) as [o|]; [|done].
    unfold on_conn_error. destruct (conn_role o); by apply (captures_same s).
  - (* CallStream *)
    destruct (calls (world s) !! k) as [o|]; [|done].
    destruct (call_role o); [done|]. unfold on_call_stream.
    revert C. simpl. destruct (videoRef (refs s)); cap_small.
  - (* CallClose *)
    destruct (calls (world s) !! k) as [o|]; [|done].
    destruct (call_role o); [by apply (captures_same s)|].
    unfold on_call_close. destruct (videoRef _); by apply (captures_same s).
  - (* CallError *)
    destruct (calls (world s) !! k); [|done]. by apply (captures_same s).
  - (* AcquireOk *)
    destruct (acquires (world s) !! a) as [o|] eqn:Ho; [|done].
    destruct (acq_settled o); [done|].
    assert (acq_stream o = None) as ->.
    { destruct C as (_ & _ & _ & Ca & _). by apply (Forall_lookup_1 _ _ _ _ Ca Ho). }
    apply startScreenShare_resolved_captures. revert C. cap_small.
  - (* AcquireFail *)
    destruct (acquires (world s) !! a) as [o|]; [|done].
    destruct (acq_settled o); [done|].
    apply (captures_same (upd_acquires (alter (λ o, mkAcq (acq_stream o) true) a) s));
      [done|]. revert C. cap_small.
  - (* TrackEnded *)
    destruct (streams (world s) !! m) as [o|]; [|done].
    destruct (tracks_stopped o); [done|].
    apply (stopTracks_captures m) in C.
    destruct (onended o); [|done]. by apply stopScreenShare_captures.
  - (* ClipboardOk *)
    destruct (clip_pending (world s)); [done|]. by apply (captures_same s).
  - (* ClipboardFail *)
    destruct (clip_pending (world s)); [done|]. by apply (captures_same s).
  - (* CopiedTimeout *)
    destruct (copied_timers (world s)); [done|]. by apply (captures_same s).
Qed.

(** Only the two buttons of the landing page lead to another page, and they
    leave [stream] as it is. *)
Lemma handle_enters s e :
  mode (hooks (handle s e)) ≠ mode (hooks s) →
  mode (hooks (handle s e)) ≠ landing →
  mode (hooks s) = landing ∧ stream (hooks (handle s e)) = stream (hooks s).
Proof.
  destruct e; unfold handle;
    unfold on_peer, on_conn_close, on_conn_error, on_call_stream, on_call_close,
      on_peer_connection, on_peer_call_view, startScreenShare,
      startScreenShare_resolved, startScreenShare_rejected, connectToPeer,
      copyPeerId, disconnect;
    cases; simpl; rewrite ?stopScreenShare_mode; simpl; cases; done.
Qed.

Lemma step_captures s e :
  capture_only_sharer s → captures_null s → captures_null (step s e).
Proof.
  intros I C. unfold step. apply commit_captures; [|by apply handle_captures].
  intros Hm Hl. destruct (handle_enters s e Hm Hl) as [Hs ->].
  destruct (stream (hooks s)) eqn:E; [|done].
  unfold capture_only_sharer in I. rewrite E in I.
  assert (mode (hooks s) = share) by by apply I. congruence.
Qed.

Lemma run_captures es : ∀ s,
  capture_only_sharer s → captures_null s → grants_in_share s es = true →
  captures_null (run s es).
Proof.
  induction es as [|e es IH]; intros s I C G; [exact C|].
  simpl in G. apply andb_prop in G as [Ge Ges].
  change (run s (e :: es)) with (run (step s e) es).
  apply IH; [|by apply step_captures|exact Ges].
  apply step_capture; [exact I|]. intros Hg. rewrite Hg in Ge.
  by apply bool_decide_eq_true in Ge.
Qed.

Lemma initial_captures : captures_null initial.
Proof. repeat split; try by constructor. intros ? ? H. discriminate. Qed.

(** In a session whose grants arrive in share mode, neither the close of
    the viewer's connection nor the end of the captured track clears the
    [stream] cell. *)
Lemma stale_teardown_keeps_stream es :
  grants_in_share initial es = true →
  (∀ c o, conns (world (run initial es)) !! c = Some o → conn_role o = inbound →
          stream (hooks (step (run initial es) (ConnClose c)))
          = stream (hooks (run initial es)))
  ∧ (∀ m o, streams (world (run initial es)) !! m = Some o → onended o ≠ None →
            stream (hooks (step (run initial es) (TrackEnded m)))
            = stream (hooks (run initial es))).
Proof.
  intros G.
  assert (capture_only_sharer initial) as I0 by (intros H; by contradict H).
  pose proof (run_captures es initial I0 initial_captures G)
    as (_ & Cc & Cs & _).
  split.
  - intros c o Ho Hr. apply (conn_close_keeps_stream _ c o Ho Hr).
    by apply (Forall_lookup_1 _ _ _ _ Cc Ho).
  - intros m o Ho Hn. apply (track_ended_keeps_stream _ m o Ho).
    destruct (Forall_lookup_1 _ _ _ _ Cs Ho) as [?|?]; done.
Qed.

(** ** C7: one signaling link at a time *)

(** Lookups in a store after a method call or an allocation. *)
Lemma lookup_alter_inv {A} (f : A → A) (i j : nat) (l : list A) (y : A) :
  alter f i l !! j = Some y →
  ∃ x, l !! j = Some x ∧ ((j ≠ i ∧ y = x) ∨ (j = i ∧ y = f x)).
Proof.
  destruct (decide (i = j)) as [->|Hne].
  - rewrite list_lookup_alter_eq. destruct (l !! j) as [x|]; [|done].
    intros H. injection H as <-. eauto.
  - rewrite list_lookup_alter_ne by done. eauto.
Qed.

Lemma lookup_alloc_inv {A} (x : A) (l : list A) (j : nat) (y : A) :
  alloc x l !! j = Some y → l !! j = Some y ∨ (j = length l ∧ y = x).
Proof.
  unfold alloc. intros H. apply lookup_snoc_Some in H.
  destruct H as [[_ H]|[H1 H2]]; [by left|right]. by split.
Qed.

Lemma lookup_alloc_new {A} (x : A) (l : list A) :
  alloc x l !! length l = Some x.
Proof. unfold alloc. apply lookup_snoc_Some. auto. Qed.

Lemma lookup_alloc_old {A} (x : A) (l : list A) (j : nat) (y : A) :
  l !! j = Some y → alloc x l !! j = Some y.
Proof. unfold alloc. apply lookup_app_l_Some. Qed.

Ltac inv_lookup :=
  repeat match goal with
  | H : alter _ _ _ !! _ = Some _ |- _ =>
      apply lookup_alter_inv in H as (? & H & [[? ->]|[-> ->]])
  | H : alloc _ _ !! _ = Some _ |- _ =>
      apply lookup_alloc_inv in H as [H|[-> ->]]
  | H : match ?x with Some _ => _ | None => _ end !! _ = Some _ |- _ =>
      destruct x eqn:?
  end.

(** The links of the state a handler returns. *)
Lemma links_inv_same s s' :
  links_of s' = links_of s → links_inv s → links_inv s'.
Proof. unfold links_inv. by intros ->. Qed.

Lemma startScreenShare_links cap s :
  links_of (startScreenShare cap s) = links_of s.
Proof.
  unfold startScreenShare. rewrite <- (stopScreenShare_links cap s). reflexivity.
Qed.

Lemma startScreenShare_resolved_links cap s :
  links_of (startScreenShare_resolved cap s) = links_of s.
Proof. unfold startScreenShare_resolved. cases; reflexivity. Qed.

Lemma copyPeerId_links s : links_of (copyPeerId s) = links_of s.
Proof. unfold copyPeerId. cases; reflexivity. Qed.

Lemma connectToPeer_links s :
  links_of (connectToPeer s)
  = if decide (remotePeerId (hooks s) = "") then links_of s else
    match peerRef (refs s) with
    | None => links_of s
    | Some _ =>
        let cs := match connectionRef (refs s) with
                  | Some c => alter (set_phase conn_closed) c (conns (world s))
                  | None => conns (world s)
                  end in
        (mode (hooks s), peerRef (refs s), Some (length cs), cleanup s,
         peers (world s),
         alloc (mkConn outbound None (remotePeerId (hooks s)) conn_pending) cs)
    end.
Proof.
  unfold connectToPeer. case_decide; [done|].
  destruct (peerRef (refs s)) eqn:Ep; [|done].
  unfold links_of. simpl. destruct (connectionRef (refs s)); simpl;
    rewrite ?Ep; reflexivity.
Qed.

Lemma disconnect_links s :
  links_of (disconnect s)
  = (landing, peerRef (refs s), None, cleanup s, peers (world s),
     match connectionRef (refs s) with
     | Some c => alter (set_phase conn_closed) c (conns (world s))
     | None => conns (world s)
     end).
Proof.
  unfold disconnect.
  set (s1 := match connectionRef (refs s) with Some c => _ | None => s end).
  set (s2 := match callRef (refs s1) with Some k => _ | None => s1 end).
  change (links_of (setRemotePeerId "" (setError None (setMode landing
            (setConnectionStatus disconnected (stopScreenShare (stream (hooks s)) s2))))))
    with (let '(_, a, b, c, d, e) := links_of (stopScreenShare (stream (hooks s)) s2)
          in (landing, a, b, c, d, e)).
  rewrite stopScreenShare_links. subst s2 s1. unfold links_of.
  destruct (connectionRef (refs s)) eqn:Ec; simpl;
    destruct (callRef (refs s)) eqn:Ek; simpl; rewrite ?Ec; reflexivity.
Qed.

Lemma effect_cleanup_links p cap s :
  links_of (effect_cleanup p cap s)
  = (mode (hooks s), peerRef (refs s), connectionRef (refs s), cleanup s,
     alter (λ o, mkPeer (peer_mode o) (peer_stream o) true) p (peers (world s)),
     match connectionRef (refs s) with
     | Some c => alter (set_phase conn_closed) c (conns (world s))
     | None => conns (world s)
     end).
Proof.
  unfold effect_cleanup.
  set (s1 := match connectionRef (refs s) with Some c => _ | None => s end).
  set (s2 := match callRef (refs s1) with Some k => _ | None => s1 end).
  change (links_of (destroyPeer p (stopScreenShare cap s2)))
    with (let '(a, b, c, d, e, f) := links_of (stopScreenShare cap s2)
          in (a, b, c, d,
              alter (λ o, mkPeer (peer_mode o) (peer_stream o) true) p e, f)).
  rewrite stopScreenShare_links. subst s2 s1. unfold links_of.
  destruct (connectionRef (refs s)) eqn:Ec; simpl;
    destruct (callRef (refs s)) eqn:Ek; simpl; rewrite ?Ec; reflexivity.
Qed.

Lemma effect_body_links m cap s :
  links_of (effect_body m cap s)
  = if decide (m = landing)
    then (mode (hooks s), peerRef (refs s), connectionRef (refs s), None,
          peers (world s), conns (world s))
    else
      let ps := match peerRef (refs s) with
                | Some p => alter (λ o, mkPeer (peer_mode o) (peer_stream o) true)
                                  p (peers (world s))
                | None => peers (world s)
                end in
      (mode (hooks s), Some (length ps), connectionRef (refs s),
       Some (length ps, cap), alloc (mkPeer m cap false) ps, conns (world s)).
Proof.
  unfold effect_body. case_decide; [reflexivity|].
  destruct (peerRef (refs s)); reflexivity.
Qed.

Lemma links_of_fields s m pr cr cl ps cs :
  links_of s = (m, pr, cr, cl, ps, cs) →
  mode (hooks s) = m ∧ peerRef (refs s) = pr ∧ connectionRef (refs s) = cr
  ∧ cleanup s = cl ∧ peers (world s) = ps ∧ conns (world s) = cs.
Proof. unfold links_of. intros H. by injection H. Qed.

Lemma commit_establishes old s :
  mode (hooks s) ≠ old → before_render s → links_inv (commit old s).
Proof.
  intros Hm [Hp Hc]. unfold commit. case_decide; [done|].
  set (v := if decide (mode (hooks s) = landing) then None else Some None).
  set (s1 := set_videoRef v s).
  assert (links_of s1 = links_of s) as E1 by reflexivity.
  set (s2 := match cleanup s1 with Some (p, c) => effect_cleanup p c s1 | None => s1 end).
  (* after the cleanup no peer is alive and no channel is open *)
  assert (mode (hooks s2) = mode (hooks s)
          ∧ (∀ p o, peers (world s2) !! p = Some o → peer_destroyed o = true)
          ∧ (∀ c o, conns (world s2) !! c = Some o → conn_role o = outbound →
                    conn_phase o = conn_closed)) as (Hm2 & Hp2 & Hc2).
  { subst s2. change (cleanup s1) with (cleanup s).
    destruct (cleanup s) as [[p c]|] eqn:Ecl.
    - destruct (links_of_fields _ _ _ _ _ _ _ (effect_cleanup_links p c s1))
        as (-> & _ & _ & _ & -> & ->).
      split; [reflexivity|]. split.
      + intros q o Hq. simpl in Hq. inv_lookup; [|reflexivity].
        match goal with |- peer_destroyed ?x = true =>
          destruct (peer_destroyed x) eqn:Ed; [reflexivity|] end.
        destruct (Hp _ _ Hq Ed) as [c' Hc']. congruence.
      + intros q o Hq Hr. simpl in Hq. inv_lookup; eauto.
    - split; [reflexivity|]. split; [|exact Hc].
      intros q o Hq. destruct (peer_destroyed o) eqn:Ed; [reflexivity|].
      destruct (Hp _ _ Hq Ed) as [c' Hc']. congruence. }
  unfold links_inv. rewrite effect_body_links.
  case_decide.
  - split; [|split].
    + intros p o Hq Hd. rewrite (Hp2 _ _ Hq) in Hd. discriminate.
    + intros c o Hq Hr Hn. by destruct Hn; eapply Hc2.
    + rewrite Hm2. done.
  - split; [|split].
    + intros p o Hq Hd. inv_lookup.
      all: try (rewrite (Hp2 _ _ Hq) in Hd; discriminate).
      all: try discriminate.
      all: rewrite Hm2; eauto.
    + intros c o Hq Hr Hn. by destruct Hn; eapply Hc2.
    + eauto.
Qed.

Lemma step_quiet s e :
  links_of (handle s e) = links_of s → links_inv s → links_inv (step s e).
Proof.
  intros E I. unfold step. rewrite commit_same.
  - by apply (links_inv_same s).
  - apply (f_equal (λ l, l.1.1.1.1.1)) in E. exact E.
Qed.

Lemma on_peer_links p f s :
  (∀ o s', peers (world s') !! p = Some o → peer_destroyed o = false →
           links_of (f o s') = links_of s') →
  links_of (on_peer p f s) = links_of s.
Proof.
  intros H. unfold on_peer. destruct (peers (world s) !! p) as [o|] eqn:E; [|done].
  destruct (peer_destroyed o) eqn:Ed; [done|]. by apply H.
Qed.

Lemma links_before_render_enter s m :
  mode (hooks s) = landing → links_inv s → before_render (setMode m s).
Proof.
  intros Hl (Hp & Hc & _). split.
  - intros p o Hq Hd. by destruct (Hp p o Hq Hd) as (_ & ? & _).
  - intros c o Hq Hr. destruct (decide (conn_phase o = conn_closed)) as [|Hn];
      [done|]. destruct (Hc c o Hq Hr Hn) as [_ Hv]. simpl in Hv. congruence.
Qed.

Lemma links_before_render_leave s :
  links_inv s → before_render (disconnect s).
Proof.
  intros (Hp & Hc & _).
  destruct (links_of_fields _ _ _ _ _ _ _ (disconnect_links s))
    as (_ & _ & _ & Ecl & Eps & Ecs).
  split.
  - rewrite Ecl, Eps. intros p o Hq Hd.
    by destruct (Hp p o Hq Hd) as (_ & ? & _).
  - rewrite Ecs. intros c o Hq Hr.
    destruct (decide (conn_phase o = conn_closed)) as [|Hn]; [done|].
    inv_lookup.
    + destruct (Hc _ _ Hq Hr Hn) as [Hcr _]. simpl in Hcr. congruence.
    + done.
    + destruct (Hc _ _ Hq Hr Hn) as [Hcr _]. simpl in Hcr. congruence.
Qed.

Lemma step_links s e : links_inv s → links_inv (step s e).
Proof.
  intros I. destruct e.
  - (* ClickShare *)
    unfold step, handle. case_decide as Hl.
    + apply commit_establishes; [simpl; congruence|].
      by apply links_before_render_enter.
    + by rewrite commit_same.
  - (* ClickView *)
    unfold step, handle. case_decide as Hl.
    + apply commit_establishes; [simpl; congruence|].
      by apply links_before_render_enter.
    + by rewrite commit_same.
  - (* TypeRemoteId *)
    apply step_quiet; [|done]. unfold handle. by case_decide.
  - (* ClickConnect *)
    unfold step, handle. case_decide as Hv; [|by rewrite commit_same].
    destruct Hv as [Hv _]. pose proof (connectToPeer_links s) as E.
    rewrite commit_same.
    2:{ apply (f_equal (λ l, l.1.1.1.1.1)) in E. simpl in E. rewrite E.
        case_decide; [done|]. by destruct (peerRef (refs s)). }
    unfold links_inv. rewrite E. clear E. case_decide; [done|].
    destruct (peerRef (refs s)) eqn:Ep; [|done].
    destruct I as (Hp & Hc & Hs). simpl. split; [|split].
    + intros p o Hq Hd. rewrite <- Ep. exact (Hp p o Hq Hd).
    + intros c o Hq Hr Hn. inv_lookup.
      all: try done.
      all: try (destruct (Hc _ _ Hq Hr Hn) as [Hcr _]; simpl in Hcr; congruence).
      all: by rewrite ?length_alter.
    + rewrite <- Ep. exact Hs.
  - (* ClickStartSharing *)
    apply step_quiet; [|done]. unfold handle. case_decide; [|done].
    apply startScreenShare_links.
  - (* ClickStopSharing *)
    apply step_quiet; [|done]. unfold handle. case_decide; [|done].
    apply stopScreenShare_links.
  - (* ClickDisconnect *)
    unfold step, handle. case_decide as Hl; [|by rewrite commit_same].
    apply commit_establishes.
    + destruct (links_of_fields _ _ _ _ _ _ _ (disconnect_links s)) as (-> & _).
      done.
    + by apply links_before_render_leave.
  - (* ClickCopy *)
    apply step_quiet; [|done]. unfold handle. case_decide; [|done].
    apply copyPeerId_links.
  - (* PeerOpen *)
    apply step_quiet; [|done]. unfold handle. by apply on_peer_links.
  - (* PeerError *)
    apply step_quiet; [|done]. unfold handle. by apply on_peer_links.
  - (* PeerConnection *)
    unfold step, handle, on_peer.
    destruct (peers (world s) !! p) as [o|] eqn:Eo; [|by rewrite commit_same].
    destruct (peer_destroyed o) eqn:Ed; [by rewrite commit_same|].
    destruct (peer_mode o) eqn:Em; try by rewrite commit_same.
    rewrite commit_same by reflexivity.
    destruct I as (Hp & Hc & Hse). destruct (Hp p o Eo Ed) as (_ & _ & Hs).
    simpl in Hs. split; [|split].
    + exact Hp.
    + intros c o' Hq Hr Hn. simpl in Hq. inv_lookup; [|done].
      destruct (Hc _ _ Hq Hr Hn) as [_ Hv]. simpl in Hv. congruence.
    + exact Hse.
  - (* PeerCall *)
    apply step_quiet; [|done]. unfold handle. apply on_peer_links.
    intros o s' _ _. by destruct (peer_mode o).
  - (* ConnOpen *)
    unfold step, handle.
    destruct (conns (world s) !! c) as [o|] eqn:Eo; [|by rewrite commit_same].
    case_decide as Hph; [|by rewrite commit_same].
    rewrite commit_same by reflexivity.
    destruct I as (Hp & Hc & Hs). split; [exact Hp|split; [|exact Hs]].
    intros c' o' Hq Hr Hn. simpl in Hq. inv_lookup.
    + by apply (Hc _ _ Hq Hr Hn).
    + assert (x = o) as -> by congruence.
      apply (Hc _ _ Hq Hr). rewrite Hph. done.
  - (* ConnClose *)
    unfold step, handle.
    destruct (conns (world s) !! c) as [o|] eqn:Eo; [|by rewrite commit_same].
    assert (links_inv (closeConn c s)) as I'.
    { destruct I as (Hp & Hc & Hs). split; [exact Hp|split; [|exact Hs]].
      intros c' o' Hq Hr Hn. simpl in Hq. inv_lookup; [|done].
      by apply (Hc _ _ Hq Hr Hn). }
    assert (links_of (on_conn_close o (closeConn c s)) = links_of (closeConn c s))
      as E.
    { unfold on_conn_close. destruct (conn_role o).
      - by rewrite stopScreenShare_links.
      - by destruct (videoRef _). }
    rewrite commit_same.
    + by apply (links_inv_same (closeConn c s)).
    + apply (f_equal (λ l, l.1.1.1.1.1)) in E. exact E.
  - (* ConnError *)
    apply step_quiet; [|done]. unfold handle.
    destruct (conns (world s) !! c) as [o|]; [|done].
    unfold on_conn_error. by destruct (conn_role o).
  - (* CallStream *)
    apply step_quiet; [|done]. unfold handle.
    destruct (calls (world s) !! k) as [o|]; [|done].
    destruct (call_role o); [done|]. unfold on_call_stream.
    by destruct (videoRef _).
  - (* CallClose *)
    apply step_quiet; [|done]. unfold handle.
    destruct (calls (world s) !! k) as [o|]; [|done].
    destruct (call_role o); [done|]. unfold on_call_close.
    by destruct (videoRef _).
  - (* CallError *)
    apply step_quiet; [|done]. unfold handle.
    by destruct (calls (world s) !! k).
  - (* AcquireOk *)
    apply step_quiet; [|done]. unfold handle.
    destruct (acquires (world s) !! a) as [o|]; [|done].
    destruct (acq_settled o); [done|].
    by rewrite startScreenShare_resolved_links.
  - (* AcquireFail *)
    apply step_quiet; [|done]. unfold handle.
    destruct (acquires (world s) !! a) as [o|]; [|done].
    by destruct (acq_settled o).
  - (* TrackEnded *)
    apply step_quiet; [|done]. unfold handle.
    destruct (streams (world s) !! m) as [o|]; [|done].
    destruct (tracks_stopped o); [done|].
    destruct (onended o); [|done]. by rewrite stopScreenShare_links.
  - (* ClipboardOk *)
    apply step_quiet; [|done]. unfold handle.
    by destruct (clip_pending (world s)).
  - (* ClipboardFail *)
    apply step_quiet; [|done]. unfold handle.
    by destruct (clip_pending (world s)).
  - (* CopiedTimeout *)
    apply step_quiet; [|done]. unfold handle.
    by destruct (copied_timers (world s)).
Qed.

Lemma run_links es : ∀ s, links_inv s → links_inv (run s es).
Proof.
  induction es as [|e es IH]; intros s I; [exact I|].
  change (run s (e :: es)) with (run (step s e) es).
  apply IH. by apply step_links.
Qed.

Lemma initial_links : links_inv initial.
Proof.
  split; [|split]; [intros ? ? H; simpl in H; discriminate ..|done].
Qed.

Lemma lookup_alter_hit {A} (f : A → A) (i : nat) (l : list A) (x : A) :
  l !! i = Some x → alter f i l !! i = Some (f x).
Proof. intros H. by rewrite list_lookup_alter_eq, H. Qed.

Lemma alloc_after_alter {A} (f : A → A) (i : nat) (x : A) (l : list A) :
  alloc x (alter f i l) !! length l = Some x.
Proof. rewrite <- (length_alter f l i). apply lookup_alloc_new. Qed.



(** Connections offered to the sharer are not made by the component and are
    not counted above: a second inbound connection replaces the first in
    [connectionRef], and the first stays as the transport left it. *)
Lemma inbound_connections_are_kept :
  let s := run initial [ClickShare; PeerOpen 0 "abc";
                        PeerConnection 0 "first"; ConnOpen 0;
                        PeerConnection 0 "second"; ConnOpen 1] in
  connectionRef (refs s) = Some 1
  ∧ ¬ conn_is_closed s 0 ∧ ¬ conn_is_closed s 1
  ∧ ¬ channel_live s 0 ∧ ¬ channel_live s 1.
Proof.
  repeat split; try (vm_compute; reflexivity).
  all: intros (o & Ho & Hc); vm_compute in Ho; simplify_eq;
    try discriminate; by destruct Hc.
Qed.

(** ** Every reference names an object of its store *)

Lemma length_alloc {A} (x : A) (l : list A) : length (alloc x l) = S (length l).
Proof. unfold alloc. rewrite length_app. simpl. lia. Qed.

Lemma refs_wf_same s s' :
  wf_shape s' = wf_shape s → refs_wf s → refs_wf s'.
Proof.
  unfold wf_shape, refs_wf. intros H.
  injection H as -> -> -> -> -> -> -> -> -> ->. done.
Qed.

Ltac wf_small :=
  let W := fresh "W" in
  intros W; destruct W as (?W & ?W & ?W & ?W & ?W & ?W);
  unfold refs_wf; simpl;
  repeat split; intros; simplify_eq;
  rewrite ?length_alloc, ?length_alter;
  eauto using Nat.lt_lt_succ_r with lia.

Lemma closeConn_wf c s : refs_wf s → refs_wf (closeConn c s).
Proof. wf_small. Qed.
Lemma closeCall_wf k s : refs_wf s → refs_wf (closeCall k s).
Proof. wf_small. Qed.
Lemma stopTracks_wf m s : refs_wf s → refs_wf (stopTracks m s).
Proof. wf_small. Qed.
Lemma destroyPeer_wf p s : refs_wf s → refs_wf (destroyPeer p s).
Proof. wf_small. Qed.
Lemma set_connectionRef_None_wf s : refs_wf s → refs_wf (set_connectionRef None s).
Proof. wf_small. Qed.
Lemma set_callRef_None_wf s : refs_wf s → refs_wf (set_callRef None s).
Proof. wf_small. Qed.
Lemma setStream_None_wf s : refs_wf s → refs_wf (setStream None s).
Proof. wf_small. Qed.
Lemma set_videoRef_empty_wf v s :
  v = None ∨ v = Some None → refs_wf s → refs_wf (set_videoRef v s).
Proof. intros [-> | ->]; wf_small. Qed.

Lemma stopScreenShare_wf cap s : refs_wf s → refs_wf (stopScreenShare cap s).
Proof.
  intros W. unfold stopScreenShare.
  set (s1 := match cap with Some m => _ | None => s end).
  assert (refs_wf s1) as W1.
  { subst s1. destruct cap; [|done]. by apply setStream_None_wf, stopTracks_wf. }
  clearbody s1.
  set (s2 := match videoRef (refs s1) with Some (Some m) => _ | _ => s1 end).
  assert (refs_wf s2) as W2.
  { subst s2. destruct (videoRef (refs s1)) as [[m|]|]; try done.
    apply set_videoRef_empty_wf; [by right|]. by apply stopTracks_wf. }
  clearbody s2.
  destruct (callRef (refs s2)); [|done].
  by apply set_callRef_None_wf, closeCall_wf.
Qed.

Lemma startScreenShare_wf cap s : refs_wf s → refs_wf (startScreenShare cap s).
Proof.
  intros W. unfold startScreenShare.
  by apply (refs_wf_same (stopScreenShare cap s)), stopScreenShare_wf.
Qed.

Lemma startScreenShare_resolved_wf cap s :
  refs_wf s → refs_wf (startScreenShare_resolved cap s).
Proof.
  intros W. unfold startScreenShare_resolved.
  set (m := length (streams (world s))).
  set (s3 := match videoRef _ with Some _ => _ | None => _ end).
  assert (refs_wf s3) as W3.
  { subst s3 m. revert W. simpl. destruct (videoRef (refs s)); wf_small. }
  clearbody s3. destruct (viewer_ready s3).
  - revert W3. wf_small.
  - by apply (refs_wf_same s3).
Qed.

Lemma connectToPeer_wf s : refs_wf s → refs_wf (connectToPeer s).
Proof.
  intros W. unfold connectToPeer. case_decide; [done|].
  destruct (peerRef (refs s)) eqn:Ep; [|done].
  set (s1 := setError None (setConnectionStatus connecting s)).
  assert (refs_wf s1) as W1 by by apply (refs_wf_same s).
  clearbody s1.
  set (s2 := match connectionRef (refs s1) with Some c => _ | None => s1 end).
  assert (refs_wf s2) as W2.
  { subst s2. destruct (connectionRef (refs s1)); [|done]. by apply closeConn_wf. }
  clearbody s2. revert W2. wf_small.
Qed.

Lemma copyPeerId_wf s : refs_wf s → refs_wf (copyPeerId s).
Proof.
  intros W. unfold copyPeerId. case_decide; [done|]. by apply (refs_wf_same s).
Qed.

Lemma disconnect_wf s : refs_wf s → refs_wf (disconnect s).
Proof.
  intros W. unfold disconnect.
  set (s1 := match connectionRef (refs s) with Some c => _ | None => s end).
  assert (refs_wf s1) as W1.
  { subst s1. destruct (connectionRef (refs s)); [|done].
    by apply set_connectionRef_None_wf, closeConn_wf. }
  clearbody s1.
  set (s2 := match callRef (refs s1) with Some k => _ | None => s1 end).
  assert (refs_wf s2) as W2.
  { subst s2. destruct (callRef (refs s1)); [|done].
    by apply set_callRef_None_wf, closeCall_wf. }
  clearbody s2.
  apply (refs_wf_same (stopScreenShare (stream (hooks s)) s2)); [done|].
  by apply stopScreenShare_wf.
Qed.

Lemma effect_cleanup_wf p cap s : refs_wf s → refs_wf (effect_cleanup p cap s).
Proof.
  intros W. unfold effect_cleanup.
  set (s1 := match connectionRef (refs s) with Some c => _ | None => s end).
  assert (refs_wf s1) as W1.
  { subst s1. destruct (connectionRef (refs s)); [|done]. by apply closeConn_wf. }
  clearbody s1.
  set (s2 := match callRef (refs s1) with Some k => _ | None => s1 end).
  assert (refs_wf s2) as W2.
  { subst s2. destruct (callRef (refs s1)); [|done]. by apply closeCall_wf. }
  clearbody s2. by apply destroyPeer_wf, stopScreenShare_wf.
Qed.

Lemma effect_body_wf m cap s : refs_wf s → refs_wf (effect_body m cap s).
Proof.
  intros W. unfold effect_body. case_decide.
  - revert W. wf_small.
  - set (s1 := match peerRef (refs s) with Some p => _ | None => s end).
    assert (refs_wf s1) as W1.
    { subst s1. destruct (peerRef (refs s)); [|done]. by apply destroyPeer_wf. }
    clearbody s1. revert W1. wf_small.
Qed.

Lemma commit_wf old s : refs_wf s → refs_wf (commit old s).
Proof.
  intros W. unfold commit. case_decide; [done|].
  apply effect_body_wf.
  set (s1 := set_videoRef _ s).
  assert (refs_wf s1) as W1.
  { subst s1. apply set_videoRef_empty_wf; [|done]. case_decide; auto. }
  clearbody s1.
  destruct (cleanup s1) as [[p c]|]; [|done]. by apply effect_cleanup_wf.
Qed.

Lemma on_peer_wf p f s :
  (∀ o s', refs_wf s' → refs_wf (f o s')) → refs_wf s → refs_wf (on_peer p f s).
Proof.
  intros H W. unfold on_peer. destruct (peers (world s) !! p) as [o|]; [|done].
  destruct (peer_destroyed o); [done|]. by apply H.
Qed.

Lemma handle_wf s e : refs_wf s → refs_wf (handle s e).
Proof.
  intros W. destruct e; unfold handle.
  - (* ClickShare *) case_decide; [|done]. by apply (refs_wf_same s).
  - (* ClickView *) case_decide; [|done]. by apply (refs_wf_same s).
  - (* TypeRemoteId *) case_decide; [|done]. by apply (refs_wf_same s).
  - (* ClickConnect *) case_decide; [|done]. by apply connectToPeer_wf.
  - (* ClickStartSharing *) case_decide; [|done]. by apply startScreenShare_wf.
  - (* ClickStopSharing *) case_decide; [|done]. by apply stopScreenShare_wf.
  - (* ClickDisconnect *) case_decide; [|done]. by apply disconnect_wf.
  - (* ClickCopy *) case_decide; [|done]. by apply copyPeerId_wf.
  - (* PeerOpen *)
    apply on_peer_wf; [|done]. intros _ s'. by apply (refs_wf_same s').
  - (* PeerError *)
    apply on_peer_wf; [|done]. intros _ s'. by apply (refs_wf_same s').
  - (* PeerConnection *)
    apply on_peer_wf; [|done]. intros o s'. destruct (peer_mode o); try done.
    unfold on_peer_connection. wf_small.
  - (* PeerCall *)
    apply on_peer_wf; [|done]. intros o s'. destruct (peer_mode o); try done.
    unfold on_peer_call_view. wf_small.
  - (* ConnOpen *)
    destruct (conns (world s) !! c); [|done]. case_decide; [|done].
    revert W. wf_small.
  - (* ConnClose *)
    destruct (conns (world s) !! c) as [o|]; [|done].
    apply (closeConn_wf c) in W. unfold on_conn_close. destruct (conn_role o).
    + by apply stopScreenShare_wf, (refs_wf_same (closeConn c s)).
    + destruct (videoRef _) eqn:E; [|by apply (refs_wf_same (closeConn c s))].
      apply set_videoRef_empty_wf; [by right|].
      by apply (refs_wf_same (closeConn c s)).
  - (* ConnError *)
    destruct (conns (world s) !! c) as [o|]; [|done].
    unfold on_conn_error. destruct (conn_role o); by apply (refs_wf_same s).
  - (* CallStream *)
    destruct (calls (world s) !! k) as [o|]; [|done].
    destruct (call_role o); [done|]. unfold on_call_stream.
    revert W. simpl. destruct (videoRef (refs s)); wf_small.
  - (* CallClose *)
    destruct (calls (world s) !! k) as [o|]; [|done].
    apply (closeCall_wf k) in W. destruct (call_role o); [done|].
    unfold on_call_close.
    destruct (videoRef _) eqn:E.
    + apply (refs_wf_same (set_videoRef (Some None) (closeCall k s))); [done|].
      apply set_videoRef_empty_wf; [by right|done].
    + by apply (refs_wf_same (closeCall k s)).
  - (* CallError *)
    destruct (calls (world s) !! k); [|done]. by apply (refs_wf_same s).
  - (* AcquireOk *)
    destruct (acquires (world s) !! a) as [o|]; [|done].
    destruct (acq_settled o); [done|].
    by apply startScreenShare_resolved_wf, (refs_wf_same s).
  - (* AcquireFail *)
    destruct (acquires (world s) !! a) as [o|]; [|done].
    destruct (acq_settled o); [done|]. by apply (refs_wf_same s).
  - (* TrackEnded *)
    destruct (streams (world s) !! m) as [o|]; [|done].
    destruct (tracks_stopped o); [done|].
    apply (stopTracks_wf m) in W.
    destruct (onended o); [|done]. by apply stopScreenShare_wf.
  - (* ClipboardOk *)
    destruct (clip_pending (world s)); [done|]. by apply (refs_wf_same s).
  - (* ClipboardFail *)
    destruct (clip_pending (world s)); [done|]. by apply (refs_wf_same s).
  - (* CopiedTimeout *)
    destruct (copied_timers (world s)); [done|]. by apply (refs_wf_same s).
Qed.

Lemma run_wf es : ∀ s, refs_wf s → refs_wf (run s es).
Proof.
  induction es as [|e es IH]; intros s W; [exact W|].
  change (run s (e :: es)) with (run (step s e) es).
  apply IH. unfold step. by apply commit_wf, handle_wf.
Qed.

Lemma initial_wf : refs_wf initial.
Proof. repeat split; intros; discriminate. Qed.

(** ** C9: the ways a session ends *)

(** A method call on one object of a store establishes its effect there and
    keeps it everywhere. *)
Lemma alter_establish {A} (f : A → A) (P : A → Prop) (i : nat) (l : list A) :
  (∀ x, P (f x)) → is_Some (l !! i) → ∃ o, alter f i l !! i = Some o ∧ P o.
Proof.
  intros Hf [x Hx]. exists (f x). split; [by apply lookup_alter_hit|apply Hf].
Qed.

Lemma alter_keep {A} (f : A → A) (P : A → Prop) (i k : nat) (l : list A) :
  (∀ x, P x → P (f x)) →
  (∃ o, l !! k = Some o ∧ P o) → ∃ o, alter f i l !! k = Some o ∧ P o.
Proof.
  intros Hf (x & Hx & HP). destruct (decide (i = k)) as [->|Hne].
  - exists (f x). split; [by apply lookup_alter_hit|by apply Hf].
  - exists x. by rewrite list_lookup_alter_ne.
Qed.

Lemma alter_is_Some {A} (f : A → A) (i k : nat) (l : list A) :
  is_Some (l !! k) → is_Some (alter f i l !! k).
Proof.
  rewrite !lookup_lt_is_Some. by rewrite length_alter.
Qed.

Ltac released :=
  repeat first
    [ assumption
    | apply alter_establish;
      [by intros [] | repeat (apply alter_is_Some); assumption]
    | apply alter_keep; [by intros [] |] ].

Lemma click_disconnect_releases s :
  mode (hooks s) ≠ landing →
  idle (step s ClickDisconnect)
  ∧ cleanup (step s ClickDisconnect) = None
  ∧ (∀ c, connectionRef (refs s) = Some c → is_Some (conns (world s) !! c) →
          conn_is_closed (step s ClickDisconnect) c)
  ∧ (∀ k, callRef (refs s) = Some k → is_Some (calls (world s) !! k) →
          call_is_closed (step s ClickDisconnect) k)
  ∧ (∀ m, stream (hooks s) = Some m → is_Some (streams (world s) !! m) →
          tracks_are_stopped (step s ClickDisconnect) m)
  ∧ (∀ m, videoRef (refs s) = Some (Some m) → is_Some (streams (world s) !! m) →
          tracks_are_stopped (step s ClickDisconnect) m)
  ∧ (∀ p c, cleanup s = Some (p, c) → is_Some (peers (world s) !! p) →
            peer_is_destroyed (step s ClickDisconnect) p)
  ∧ (∀ p, peer_is_destroyed s p → peer_is_destroyed (step s ClickDisconnect) p).
Proof.
  intros Hm. open_state s. simpl in Hm.
  unfold idle, conn_is_closed, call_is_closed, tracks_are_stopped,
    peer_is_destroyed.
  destruct m; [done| |];
    destruct cr, kr, st, vr as [[?|]|], cl as [[? [?|]]|];
    lazy -[alter list_alter lookup list_lookup alloc length is_Some];
    repeat split; try reflexivity.
  all: try (intros; simplify_eq; released).
Qed.

Lemma wf_is_Some {A} (l : list A) (i : nat) : i < length l → is_Some (l !! i).
Proof. apply lookup_lt_is_Some. Qed.

(** What unmounting releases, for the pending cleanup of peer [p]. *)
Lemma unmount_releases s p cap :
  cleanup s = Some (p, cap) →
  (∀ c, connectionRef (refs s) = Some c → is_Some (conns (world s) !! c) →
        conn_is_closed (unmount s) c)
  ∧ (∀ k, callRef (refs s) = Some k → is_Some (calls (world s) !! k) →
          call_is_closed (unmount s) k)
  ∧ (is_Some (peers (world s) !! p) → peer_is_destroyed (unmount s) p).
Proof.
  intros Hcl. open_state s. simpl in Hcl. subst cl.
  unfold conn_is_closed, call_is_closed, peer_is_destroyed.
  destruct cr, kr, cap;
    lazy -[alter list_alter lookup list_lookup alloc length is_Some];
    repeat split; intros; simplify_eq; released.
Qed.

(** A signaling error changes two cells and nothing else. *)
Lemma peer_error_frame s p ty :
  let s' := step s (PeerError p ty) in
  mode (hooks s') = mode (hooks s)
  ∧ peerId (hooks s') = peerId (hooks s)
  ∧ stream (hooks s') = stream (hooks s)
  ∧ refs s' = refs s ∧ world s' = world s ∧ cleanup s' = cleanup s.
Proof.
  simpl. unfold step, handle, on_peer.
  destruct (peers (world s) !! p) as [o|]; [|by rewrite commit_same].
  destruct (peer_destroyed o); [by rewrite commit_same|].
  rewrite commit_same by reflexivity. simpl. by destruct (refs s), (world s).
Qed.

(** The peer identifier is not among the cells "Disconnect" writes. *)
Lemma click_disconnect_peerId s :
  peerId (hooks (step s ClickDisconnect)) = peerId (hooks s).
Proof.
  unfold step.
  transitivity (peerId (hooks (handle s ClickDisconnect))).
  - by destruct (commit_hooks (mode (hooks s)) (handle s ClickDisconnect))
      as [-> | ->].
  - unfold handle. case_decide; [|reflexivity]. unfold disconnect. simpl.
    rewrite stopScreenShare_hooks.
    destruct (stream (hooks s)), (connectionRef (refs s)); simpl;
      by destruct (callRef (refs s)).
Qed.




(** * Further properties of the component *)

(** ** [stopScreenShare] is idempotent *)

Lemma alter_absorb {A} (f : A → A) (i j : nat) (l : list A) :
  (∀ x, f (f x) = f x) →
  alter f i (alter f j (alter f i l)) = alter f j (alter f i l).
Proof.
  intros Hf. apply list_eq. intros k.
  rewrite !list_lookup_alter. repeat case_decide; simplify_eq;
    try reflexivity;
    match goal with |- context [l !! ?x] => destruct (l !! x) end; simpl;
    rewrite ?Hf; reflexivity.
Qed.

Lemma alter_twice {A} (f : A → A) (i : nat) (l : list A) :
  (∀ x, f (f x) = f x) → alter f i (alter f i l) = alter f i l.
Proof.
  intros Hf. apply list_eq. intros k.
  rewrite !list_lookup_alter. repeat case_decide; simplify_eq;
    try reflexivity;
    match goal with |- context [l !! ?x] => destruct (l !! x) end; simpl;
    rewrite ?Hf; reflexivity.
Qed.

(** Calling [stopScreenShare] a second time from the same closure changes
    nothing: the tracks are already stopped, the video element is already
    unbound and [callRef] is already null. *)
Theorem stopScreenShare_twice (cap : option nat) (s : State) :
  stopScreenShare cap (stopScreenShare cap s) = stopScreenShare cap s.
Proof.
  open_state s.
  destruct cap, vr as [[?|]|], kr;
    lazy -[alter list_alter lookup list_lookup alloc length];
    rewrite ?alter_absorb, ?alter_twice by done; reflexivity.
Qed.

(** ** Events of a media call *)

(** An error event of a call, placed or received, sets the error message
    and nothing else: no cell of the session, no reference and no object
    changes, so the call is not closed by it. *)
Theorem call_error_only_reports (s : State) (k : nat) (o : CallObj) (err : string) :
  calls (world s) !! k = Some o →
  step s (CallError k err) = setError (Some ("Call error: " +:+ err)) s.
Proof.
  intros Hk. unfold step, handle. rewrite Hk. by rewrite commit_same.
Qed.

Lemma call_error_only_reports_witness :
  step sharer_sharing (CallError 0 "ice")
  = setError (Some "Call error: ice") sharer_sharing.
Proof.
  apply (call_error_only_reports sharer_sharing 0 (mkCall placed false false)).
  vm_compute; reflexivity.
Defined.

(** When a call the viewer received closes, the video element is unbound
    and [connectionStatus] becomes disconnected, although the connection is
    left as it is and stays referenced; [callRef] keeps naming the closed
    call.  A call the sharer placed has no close handler: only the call
    itself changes. *)
Theorem call_close_handlers (s : State) (k : nat) (o : CallObj) :
  calls (world s) !! k = Some o →
  let s' := step s (CallClose k) in
  call_is_closed s' k
  ∧ conns (world s') = conns (world s)
  ∧ refs s' = match call_role o, videoRef (refs s) with
              | received, Some _ =>
                  mkRefs (peerRef (refs s)) (Some None)
                         (connectionRef (refs s)) (callRef (refs s))
              | _, _ => refs s
              end
  ∧ hooks s' = match call_role o with
               | received => hooks (setConnectionStatus disconnected s)
               | placed => hooks s
               end.
Proof.
  intros Hk s'. subst s'. unfold step, handle. rewrite Hk.
  rewrite commit_same.
  2:{ destruct (call_role o); [reflexivity|]. unfold on_call_close.
      by destruct (videoRef _). }
  split.
  { assert (call_is_closed (closeCall k s) k) as Hc.
    { apply alter_establish; [by intros []|by eexists]. }
    destruct (call_role o); [exact Hc|]. unfold on_call_close.
    by destruct (videoRef _). }
  destruct (call_role o); simpl.
  - repeat split.
  - unfold on_call_close. simpl.
    destruct (videoRef (refs s)) eqn:E; simpl; repeat split.
Qed.

Lemma call_close_handlers_witness :
  let s := run viewer_connected [PeerCall 0; CallStream 0] in
  videoRef (refs s) = Some (Some 0)
  ∧ connectionStatus (hooks s) = connected
  ∧ call_is_closed (step s (CallClose 0)) 0
  ∧ conns (world (step s (CallClose 0))) = conns (world s)
  ∧ videoRef (refs (step s (CallClose 0))) = Some None
  ∧ connectionStatus (hooks (step s (CallClose 0))) = disconnected.
Proof.
  split; [vm_compute; reflexivity|]. split; [vm_compute; reflexivity|].
  destruct (call_close_handlers (run viewer_connected [PeerCall 0; CallStream 0])
              0 (mkCall received true false) ltac:(vm_compute; reflexivity))
    as (H1 & H2 & H3 & H4).
  split; [exact H1|]. split; [exact H2|].
  split; [by rewrite H3|by rewrite H4].
Defined.

(** The viewer answers a call that arrives on its peer, without a stream of
    its own, and binds the stream it then receives to the video element;
    neither event changes [connectionStatus], and the viewer never holds a
    capture handle because of them. *)
Theorem viewer_receives_stream (s : State) (p : nat) (o : PeerObj) :
  peers (world s) !! p = Some o →
  peer_destroyed o = false →
  peer_mode o = view →
  videoRef (refs s) ≠ None →
  let k := length (calls (world s)) in
  let m := length (streams (world s)) in
  let s' := step (step s (PeerCall p)) (CallStream k) in
  callRef (refs s') = Some k
  ∧ calls (world s') !! k = Some (mkCall received true false)
  ∧ videoRef (refs s') = Some (Some m)
  ∧ streams (world s') !! m = Some (mkStream None false)
  ∧ hooks s' = hooks s
  ∧ conns (world s') = conns (world s).
Proof.
  intros Hp Hd Hm Hv k m s'. subst s'.
  assert (step s (PeerCall p) = on_peer_call_view s) as ->.
  { unfold step, handle, on_peer. rewrite Hp, Hd, Hm. by rewrite commit_same. }
  assert (calls (world (on_peer_call_view s)) !! k
          = Some (mkCall received true false)) as Hk by apply lookup_alloc_new.
  unfold step, handle. rewrite Hk. simpl.
  rewrite commit_same by (unfold on_call_stream; by destruct (videoRef _)).
  unfold on_call_stream. simpl.
  destruct (videoRef (refs s)); [|done]. simpl.
  repeat split; try done. apply lookup_alloc_new.
Qed.

Lemma viewer_receives_stream_witness :
  let s' := step (step viewer_connected (PeerCall 0)) (CallStream 0) in
  callRef (refs s') = Some 0
  ∧ calls (world s') !! 0 = Some (mkCall received true false)
  ∧ videoRef (refs s') = Some (Some 0)
  ∧ streams (world s') !! 0 = Some (mkStream None false)
  ∧ hooks s' = hooks viewer_connected
  ∧ conns (world s') = conns (world viewer_connected).
Proof.
  apply (viewer_receives_stream viewer_connected 0 (mkPeer view None false));
    vm_compute; done.
Defined.

(** The sharer never answers: a call that arrives on a peer created in
    share mode changes nothing. *)
Theorem sharer_ignores_calls (s : State) (p : nat) (o : PeerObj) :
  peers (world s) !! p = Some o →
  peer_mode o = share →
  step s (PeerCall p) = s.
Proof.
  intros Hp Hm. unfold step, handle, on_peer. rewrite Hp, Hm.
  destruct (peer_destroyed o); by rewrite commit_same.
Qed.

Lemma sharer_ignores_calls_witness :
  step sharer_sharing (PeerCall 0) = sharer_sharing.
Proof.
  apply (sharer_ignores_calls sharer_sharing 0 (mkPeer share None false));
    vm_compute; reflexivity.
Defined.

(** ** Copying the identifier *)

(** With an identifier to copy, the copy button hands exactly [peerId] to
    the clipboard.  When the write succeeds [copied] is set, and the timer
    resets it: after the three events the state is the one before the click
    with the identifier in the clipboard and [copied] false.  When the write
    fails the error message is set and [copied] is left alone. *)
Theorem copy_round_trip (s : State) :
  mode (hooks s) = share →
  peerId (hooks s) ≠ "" →
  copied (hooks (run s [ClickCopy; ClipboardOk])) = true
  ∧ run s [ClickCopy; ClipboardOk; CopiedTimeout]
    = setCopied false (upd_clipboard (alloc (peerId (hooks s))) s)
  ∧ run s [ClickCopy; ClipboardFail]
    = setError (Some "Failed to copy to clipboard")
        (upd_clipboard (alloc (peerId (hooks s))) s).
Proof.
  intros Hm Hi.
  assert (step s ClickCopy
          = set_clip_pending (S (clip_pending (world s)))
              (upd_clipboard (alloc (peerId (hooks s))) s)) as E1.
  { unfold step, handle, copyPeerId. rewrite !decide_True by done.
    rewrite decide_False by done. by rewrite commit_same. }
  unfold run. simpl. rewrite E1.
  unfold step, handle. simpl. rewrite !commit_same by reflexivity. simpl.
  repeat split; by destruct s as [[] ? [] ?].
Qed.

Lemma copy_round_trip_witness :
  copied (hooks (run sharer_connected [ClickCopy; ClipboardOk])) = true
  ∧ run sharer_connected [ClickCopy; ClipboardOk; CopiedTimeout]
    = setCopied false (upd_clipboard (alloc "abc") sharer_connected)
  ∧ run sharer_connected [ClickCopy; ClipboardFail]
    = setError (Some "Failed to copy to clipboard")
        (upd_clipboard (alloc "abc") sharer_connected).
Proof.
  apply (copy_round_trip sharer_connected); vm_compute; done.
Defined.

(** ** Connecting as a viewer *)



(** ** The display is granted *)

Lemma startScreenShare_resolved_spec cap s :
  let m := length (streams (world s)) in
  let k := length (calls (world s)) in
  let s' := startScreenShare_resolved cap s in
  stream (hooks s') = Some m
  ∧ streams (world s') = alloc (mkStream (Some cap) false) (streams (world s))
  ∧ videoRef (refs s') = match videoRef (refs s) with Some _ => Some (Some m) | None => None end
  ∧ mode (hooks s') = mode (hooks s)
  ∧ connectionStatus (hooks s') = connectionStatus (hooks s)
  ∧ conns (world s') = conns (world s)
  ∧ match viewer_ready s with
    | Some _ => callRef (refs s') = Some k
                ∧ calls (world s') = alloc (mkCall placed false false) (calls (world s))
                ∧ error (hooks s') = error (hooks s)
    | None => callRef (refs s') = callRef (refs s)
              ∧ calls (world s') = calls (world s)
              ∧ error (hooks s')
                = Some "No viewer connected. Please wait for someone to connect before sharing."
    end.
Proof.
  simpl. unfold startScreenShare_resolved.
  set (s3 := match videoRef _ with Some _ => _ | None => _ end).
  assert (viewer_ready s3 = viewer_ready s) as Ev.
  { subst s3. simpl. by destruct (videoRef (refs s)). }
  assert (hooks s3 = hooks (setStream (Some (length (streams (world s)))) s)
          ∧ world s3 = world (upd_streams (alloc (mkStream (Some cap) false)) s)
          ∧ peerRef (refs s3) = peerRef (refs s)
          ∧ connectionRef (refs s3) = connectionRef (refs s)
          ∧ callRef (refs s3) = callRef (refs s)
          ∧ videoRef (refs s3)
            = match videoRef (refs s) with
              | Some _ => Some (Some (length (streams (world s))))
              | None => None
              end) as (Eh & Ew & _ & _ & Ek & Evr).
  { subst s3. simpl.
    destruct (videoRef (refs s)) eqn:E; simpl; rewrite ?E; repeat split. }
  rewrite Ev. clearbody s3.
  destruct (viewer_ready s); simpl; rewrite ?Eh, ?Ew, ?Ek, ?Evr; simpl;
    repeat split; reflexivity.
Qed.



(** When the display is granted while no open connection is referenced (or
    there is no peer), the stream still becomes the capture handle and is
    bound to the preview, but no call is placed: [callRef] and the calls are
    unchanged and the error message asks to wait for a viewer. *)
Theorem grant_without_viewer (s : State) (a : nat) (o : AcqObj) :
  acquires (world s) !! a = Some o →
  acq_settled o = false →
  viewer_ready s = None →
  let m := length (streams (world s)) in
  let s' := step s (AcquireOk a) in
  stream (hooks s') = Some m
  ∧ streams (world s') !! m = Some (mkStream (Some (acq_stream o)) false)
  ∧ videoRef (refs s') = match videoRef (refs s) with Some _ => Some (Some m) | None => None end
  ∧ callRef (refs s') = callRef (refs s)
  ∧ calls (world s') = calls (world s)
  ∧ error (hooks s')
    = Some "No viewer connected. Please wait for someone to connect before sharing."
  ∧ connectionStatus (hooks s') = connectionStatus (hooks s).
Proof.
  intros Ha Hs Hv m s'. subst s'. unfold step, handle. rewrite Ha, Hs.
  set (s0 := upd_acquires _ s).
  assert (viewer_ready s0 = None) as Hv0 by exact Hv.
  destruct (startScreenShare_resolved_spec (acq_stream o) s0)
    as (R1 & R2 & R3 & R4 & R5 & R6 & R7).
  rewrite Hv0 in R7. destruct R7 as (R7 & R8 & R9).
  rewrite commit_same by exact R4.
  repeat split; try done.
  rewrite R2. apply lookup_alloc_new.
Qed.

Lemma grant_without_viewer_witness :
  let s := step sharer_acquiring (ConnClose 0) in
  let s' := step s (AcquireOk 0) in
  connectionStatus (hooks s) = disconnected
  ∧ stream (hooks s') = Some 0
  ∧ streams (world s') !! 0 = Some (mkStream (Some None) false)
  ∧ videoRef (refs s') = Some (Some 0)
  ∧ callRef (refs s') = None
  ∧ calls (world s') = []
  ∧ error (hooks s')
    = Some "No viewer connected. Please wait for someone to connect before sharing."
  ∧ connectionStatus (hooks s') = disconnected.
Proof.
  split; [vm_compute; reflexivity|].
  apply (grant_without_viewer (step sharer_acquiring (ConnClose 0)) 0
           (mkAcq None false)); vm_compute; reflexivity.
Defined.

(** ** [connectToPeer] of the first version *)



(** ** Which events write which cell *)

Ltac unfold_handlers :=
  unfold handle, on_peer, on_conn_close, on_conn_error, on_call_stream,
    on_call_close, on_peer_connection, on_peer_call_view, startScreenShare,
    startScreenShare_resolved, startScreenShare_rejected, connectToPeer,
    copyPeerId, disconnect.

(** A render writes no cell but, possibly, [stream]. *)
Lemma commit_cells old s :
  mode (hooks (commit old s)) = mode (hooks s)
  ∧ peerId (hooks (commit old s)) = peerId (hooks s)
  ∧ remotePeerId (hooks (commit old s)) = remotePeerId (hooks s)
  ∧ connectionStatus (hooks (commit old s)) = connectionStatus (hooks s)
  ∧ copied (hooks (commit old s)) = copied (hooks s)
  ∧ error (hooks (commit old s)) = error (hooks s).
Proof. by destruct (commit_hooks old s) as [-> | ->]. Qed.

Lemma handle_connected s e :
  connectionStatus (hooks (handle s e)) = connected →
  connectionStatus (hooks s) = connected ∨ ∃ c, e = ConnOpen c.
Proof.
  destruct e; unfold_handlers; cases; simpl;
    rewrite ?stopScreenShare_status; simpl; cases; eauto; try done.
Qed.

Lemma run_snoc s es e : run s (es ++ [e]) = step (run s es) e.
Proof. unfold run. by rewrite foldl_app. Qed.

(** [connectionStatus] is connected only after a connection has reported
    open: whenever it is connected, the events so far contain an open event
    of a connection. *)
Theorem connected_only_after_open (es : list Event) :
  connectionStatus (hooks (run initial es)) = connected →
  ∃ c, ConnOpen c ∈ es.
Proof.
  induction es as [|e es IH] using rev_ind; [done|].
  rewrite run_snoc. unfold step.
  destruct (commit_cells (mode (hooks (run initial es))) (handle (run initial es) e))
    as (_ & _ & _ & -> & _).
  intros H. destruct (handle_connected _ _ H) as [Hc|[c ->]].
  - destruct (IH Hc) as [c Hin]. exists c. apply elem_of_app. by left.
  - exists c. apply elem_of_app. right. by apply list_elem_of_singleton.
Qed.

Lemma connected_only_after_open_witness :
  connectionStatus (hooks (run initial sharer_connects)) = connected
  ∧ ∃ c, ConnOpen c ∈ sharer_connects.
Proof.
  assert (connectionStatus (hooks (run initial sharer_connects)) = connected)
    as H by (vm_compute; reflexivity).
  split; [exact H|]. exact (connected_only_after_open sharer_connects H).
Defined.

(** The identifier shown to the user is written by one event only: the open
    event of a peer that is not destroyed, which stores the identifier the
    signaling server confirmed.  No click and no other event changes it. *)
Theorem peerId_only_by_open (s : State) (e : Event) :
  peerId (hooks (step s e)) ≠ peerId (hooks s) →
  ∃ p id o, e = PeerOpen p id
            ∧ peers (world s) !! p = Some o ∧ peer_destroyed o = false
            ∧ peerId (hooks (step s e)) = id.
Proof.
  unfold step.
  destruct (commit_cells (mode (hooks s)) (handle s e)) as (_ & -> & _).
  destruct e; unfold_handlers; cases; simpl;
    rewrite ?stopScreenShare_hooks; cases; simpl; try done.
  intros _. eauto 10.
Qed.

Lemma peerId_only_by_open_witness :
  ∃ p id o, PeerOpen 0 "abc" = PeerOpen p id
            ∧ peers (world (step initial ClickShare)) !! p = Some o
            ∧ peer_destroyed o = false
            ∧ peerId (hooks (step (step initial ClickShare) (PeerOpen 0 "abc"))) = id.
Proof.
  apply (peerId_only_by_open (step initial ClickShare) (PeerOpen 0 "abc")).
  vm_compute. discriminate.
Defined.

(** The role changes only through three buttons: the two role buttons of
    the landing page and "Disconnect"; there is no way from one role to the
    other except through the landing page. *)
Theorem mode_only_by_buttons (s : State) (e : Event) :
  mode (hooks (step s e)) ≠ mode (hooks s) →
  (mode (hooks s) = landing ∧ e = ClickShare ∧ mode (hooks (step s e)) = share)
  ∨ (mode (hooks s) = landing ∧ e = ClickView ∧ mode (hooks (step s e)) = view)
  ∨ (mode (hooks s) ≠ landing ∧ e = ClickDisconnect
     ∧ mode (hooks (step s e)) = landing).
Proof.
  unfold step. rewrite commit_mode.
  destruct e; unfold_handlers; cases; simpl;
    rewrite ?stopScreenShare_mode; cases; simpl; try done; auto 10.
Qed.

Lemma mode_only_by_buttons_witness :
  (mode (hooks sharer_sharing) = landing ∧ ClickDisconnect = ClickShare
   ∧ mode (hooks (step sharer_sharing ClickDisconnect)) = share)
  ∨ (mode (hooks sharer_sharing) = landing ∧ ClickDisconnect = ClickView
     ∧ mode (hooks (step sharer_sharing ClickDisconnect)) = view)
  ∨ (mode (hooks sharer_sharing) ≠ landing ∧ ClickDisconnect = ClickDisconnect
     ∧ mode (hooks (step sharer_sharing ClickDisconnect)) = landing).
Proof.
  apply (mode_only_by_buttons sharer_sharing ClickDisconnect).
  vm_compute. discriminate.
Defined.

Lemma handle_connecting s e :
  (connectionStatus (hooks s) = connecting →
   mode (hooks s) = view ∧ remotePeerId (hooks s) ≠ "") →
  connectionStatus (hooks (handle s e)) = connecting →
  mode (hooks (handle s e)) = view ∧ remotePeerId (hooks (handle s e)) ≠ "".
Proof.
  intros I.
  destruct e; unfold_handlers; cases; simpl;
    rewrite ?stopScreenShare_hooks; cases; simpl; try done;
    intuition congruence.
Qed.

(** [connectionStatus] is connecting only for a viewer who has typed an
    identifier: in share mode and on the landing page it never is. *)
Theorem connecting_only_viewer (es : list Event) :
  connectionStatus (hooks (run initial es)) = connecting →
  mode (hooks (run initial es)) = view
  ∧ remotePeerId (hooks (run initial es)) ≠ "".
Proof.
  induction es as [|e es IH] using rev_ind; [done|].
  rewrite run_snoc. unfold step.
  destruct (commit_cells (mode (hooks (run initial es))) (handle (run initial es) e))
    as (-> & _ & -> & -> & _).
  by apply handle_connecting.
Qed.

Lemma connecting_only_viewer_witness :
  connectionStatus
    (hooks (run initial [ClickView; PeerOpen 0 "me"; TypeRemoteId "abc"; ClickConnect]))
  = connecting
  ∧ mode (hooks (run initial [ClickView; PeerOpen 0 "me"; TypeRemoteId "abc"; ClickConnect]))
    = view.
Proof.
  assert (connectionStatus
            (hooks (run initial [ClickView; PeerOpen 0 "me"; TypeRemoteId "abc"; ClickConnect]))
          = connecting) as H by (vm_compute; reflexivity).
  split; [exact H|].
  exact (proj1 (connecting_only_viewer _ H)).
Defined.

(** The capture handle is set by one event only: a grant of the display
    that was still pending, and then to the stream that grant created.  No
    click and no other event puts a stream into the cell. *)
Theorem stream_only_by_grant (s : State) (e : Event) (m : nat) :
  stream (hooks (step s e)) = Some m →
  stream (hooks s) = Some m
  ∨ ∃ a o, e = AcquireOk a
           ∧ acquires (world s) !! a = Some o ∧ acq_settled o = false
           ∧ m = length (streams (world s)).
Proof.
  unfold step.
  destruct (commit_stream (mode (hooks s)) (handle s e)) as [-> | ->]; [done|].
  destruct e; unfold_handlers; cases; simpl;
    rewrite ?stopScreenShare_stream; cases; simpl; try done; auto;
    try (intros ?; simpl in *; congruence).
  all: intros [= <-]; right; eauto 10.
Qed.

Lemma stream_only_by_grant_witness :
  stream (hooks sharer_acquiring) = Some 0
  ∨ ∃ a o, AcquireOk 0 = AcquireOk a
           ∧ acquires (world sharer_acquiring) !! a = Some o
           ∧ acq_settled o = false
           ∧ 0 = length (streams (world sharer_acquiring)).
Proof.
  apply (stream_only_by_grant sharer_acquiring (AcquireOk 0) 0).
  vm_compute; reflexivity.
Defined.

(** The identifier to connect to is written by the input of the view page,
    which is shown only while [connectionStatus] is disconnected, and is
    emptied by "Disconnect"; nothing else changes it. *)
Theorem remotePeerId_writers (s : State) (e : Event) :
  remotePeerId (hooks (step s e)) ≠ remotePeerId (hooks s) →
  (∃ r, e = TypeRemoteId r ∧ mode (hooks s) = view
        ∧ connectionStatus (hooks s) = disconnected
        ∧ remotePeerId (hooks (step s e)) = r)
  ∨ (e = ClickDisconnect ∧ mode (hooks s) ≠ landing
     ∧ remotePeerId (hooks (step s e)) = "").
Proof.
  unfold step.
  destruct (commit_cells (mode (hooks s)) (handle s e)) as (_ & _ & -> & _).
  destruct e; unfold_handlers; cases; simpl;
    rewrite ?stopScreenShare_hooks; cases; simpl; try done.
  all: intros _; first [by right | left; eexists; by intuition].
Qed.

Lemma remotePeerId_writers_witness :
  (∃ r, TypeRemoteId "abc" = TypeRemoteId r ∧ mode (hooks viewer_waiting) = view
        ∧ connectionStatus (hooks viewer_waiting) = disconnected
        ∧ remotePeerId (hooks (step viewer_waiting (TypeRemoteId "abc"))) = r)
  ∨ (TypeRemoteId "abc" = ClickDisconnect ∧ mode (hooks viewer_waiting) ≠ landing
     ∧ remotePeerId (hooks (step viewer_waiting (TypeRemoteId "abc"))) = "").
Proof.
  apply (remotePeerId_writers viewer_waiting (TypeRemoteId "abc")).
  vm_compute. discriminate.
Defined.

(** ** A session and its peer *)

Lemma stopScreenShare_refs cap s :
  refs (stopScreenShare cap s)
  = mkRefs (peerRef (refs s))
           (match videoRef (refs s) with Some _ => Some None | None => None end)
           (connectionRef (refs s)) None.
Proof.
  unfold stopScreenShare.
  destruct cap; simpl; destruct (videoRef (refs s)) as [[?|]|] eqn:Ev; simpl;
    destruct (callRef (refs s)) eqn:Ek; simpl; rewrite ?Ev, ?Ek;
    destruct (refs s); simpl in *; by subst.
Qed.

Lemma stopScreenShare_peers_cleanup cap s :
  peers (world (stopScreenShare cap s)) = peers (world s)
  ∧ cleanup (stopScreenShare cap s) = cleanup s.
Proof.
  pose proof (stopScreenShare_links cap s) as H. unfold links_of in H.
  by injection H.
Qed.

(** No handler creates or destroys a peer or touches the pending cleanup:
    only a render does. *)
Lemma handle_peers_cleanup s e :
  peers (world (handle s e)) = peers (world s)
  ∧ cleanup (handle s e) = cleanup s.
Proof.
  destruct e; unfold handle; cases; try done.
  all: repeat match goal with
       | |- context [connectToPeer ?s] =>
           pose proof (connectToPeer_links s) as L; unfold links_of in L;
           revert L; cases; intros L; by injection L
       | |- context [disconnect ?s] =>
           pose proof (disconnect_links s) as L; unfold links_of in L;
           by injection L
       | |- context [startScreenShare_resolved ?c ?s] =>
           pose proof (startScreenShare_resolved_links c s) as L;
           unfold links_of in L; by injection L
       | |- context [startScreenShare ?c ?s] =>
           pose proof (startScreenShare_links c s) as L;
           unfold links_of in L; by injection L
       | |- context [copyPeerId ?s] =>
           pose proof (copyPeerId_links s) as L;
           unfold links_of in L; by injection L
       end.
  all: unfold on_peer, on_conn_close, on_conn_error, on_call_stream,
         on_call_close, on_peer_connection, on_peer_call_view; cases; simpl;
       try done.
  all: match goal with
       | |- context [stopScreenShare ?c ?x] =>
           by destruct (stopScreenShare_peers_cleanup c x) as [-> ->]
       end.
Qed.

(** A handler neither mounts nor unmounts the video element. *)
Lemma handle_video_mounted s e :
  videoRef (refs (handle s e)) = None ↔ videoRef (refs s) = None.
Proof.
  destruct e; unfold_handlers; cases; simpl;
    rewrite ?stopScreenShare_refs; simpl; cases; simpl in *; try done;
    split; congruence.
Qed.

(** On the landing page, with nothing referenced and no peer alive, no
    handler makes a reference. *)
Lemma handle_landing_refs s e :
  mode (hooks s) = landing →
  connectionRef (refs s) = None →
  callRef (refs s) = None →
  (∀ p o, peers (world s) !! p = Some o → peer_destroyed o = true) →
  connectionRef (refs (handle s e)) = None ∧ callRef (refs (handle s e)) = None.
Proof.
  intros Hm Hc Hk Hp.
  destruct e; unfold_handlers; unfold viewer_ready; simpl; rewrite ?Hc;
    cases; simpl; rewrite ?stopScreenShare_refs; simpl; try done;
    try (intuition congruence).
  all: try match goal with
       | H : _ = Some ?o, D : peer_destroyed ?o = false |- _ =>
           rewrite (Hp _ _ H) in D; discriminate
       end.
  all: simpl in *; congruence.
Qed.

Lemma handle_to_landing s e :
  mode (hooks (handle s e)) = landing →
  mode (hooks s) ≠ landing →
  connectionRef (refs (handle s e)) = None ∧ callRef (refs (handle s e)) = None.
Proof.
  destruct e; unfold_handlers; cases; simpl;
    rewrite ?stopScreenShare_mode, ?stopScreenShare_refs; simpl; try done;
    cases; simpl; try done; intuition congruence.
Qed.

Lemma effect_cleanup_refs p cap s :
  refs (effect_cleanup p cap s)
  = mkRefs (peerRef (refs s))
           (match videoRef (refs s) with Some _ => Some None | None => None end)
           (connectionRef (refs s)) None.
Proof.
  unfold effect_cleanup. simpl. rewrite stopScreenShare_refs.
  destruct (connectionRef (refs s)) eqn:Ec; simpl;
    destruct (callRef (refs s)) eqn:Ek; simpl; by rewrite ?Ec.
Qed.

(** A render that follows a change of [mode] establishes what a session
    owns, provided the landing page is entered with nothing referenced. *)
Lemma commit_session old s :
  mode (hooks s) ≠ old →
  (mode (hooks s) = landing →
   connectionRef (refs s) = None ∧ callRef (refs s) = None) →
  session_inv (commit old s).
Proof.
  intros Hm Hl. unfold commit. case_decide; [done|].
  set (v := if decide (mode (hooks s) = landing) then None else Some None).
  set (s1 := set_videoRef v s).
  set (s2 := match cleanup s1 with Some (p, c) => effect_cleanup p c s1 | None => s1 end).
  assert (mode (hooks s2) = mode (hooks s)
          ∧ videoRef (refs s2) = v
          ∧ (mode (hooks s) = landing →
             connectionRef (refs s2) = None ∧ callRef (refs s2) = None))
    as (Em & Ev & El).
  { subst s2. destruct (cleanup s1) as [[p c]|].
    - rewrite effect_cleanup_hooks, stopScreenShare_mode, effect_cleanup_refs.
      simpl. repeat split; [subst v; by case_decide|by apply Hl].
    - repeat split; by apply Hl. }
  clearbody s2. unfold effect_body, session_inv. case_decide as Hd.
  - simpl. rewrite Em, Ev. repeat split; try done; by apply El.
  - destruct (peerRef (refs s2)) eqn:Er; simpl; rewrite Em, Ev;
      (repeat split; try done);
      intros p c [= <- _]; unfold peer_live; simpl;
      eexists;
      (split; [first [apply alloc_after_alter|apply lookup_alloc_new]
              |reflexivity]).
Qed.

Lemma step_session s e : links_inv s → session_inv s → session_inv (step s e).
Proof.
  intros (Lp & _ & _) (S1 & S2 & S3). unfold step.
  destruct (decide (mode (hooks (handle s e)) = mode (hooks s))) as [Hm|Hm].
  - rewrite commit_same by done.
    destruct (handle_peers_cleanup s e) as [Ep Ec].
    assert (mode (hooks s) = landing →
            ∀ p o, peers (world s) !! p = Some o → peer_destroyed o = true)
      as Hdead.
    { intros Hl p o Ho. destruct (peer_destroyed o) eqn:Ed; [done|].
      destruct (Lp p o Ho Ed) as (_ & [c Hc] & _).
      destruct (S1 Hl) as (Hn & _). congruence. }
    unfold session_inv. rewrite Hm, Ec. split; [|split].
    + intros Hl. destruct (S1 Hl) as (Hc & Hcr & Hk & Hv).
      destruct (handle_landing_refs s e Hl Hcr Hk (Hdead Hl)) as [-> ->].
      repeat split; try done. by apply handle_video_mounted.
    + intros Hl Hv. apply handle_video_mounted in Hv. by apply S2.
    + intros p c Hc. unfold peer_live. rewrite Ep. by apply (S3 p c).
  - apply commit_session; [done|].
    intros Hl. apply handle_to_landing; [done|congruence].
Qed.

Lemma run_session es : ∀ s, links_inv s → session_inv s → session_inv (run s es).
Proof.
  induction es as [|e es IH]; intros s L S; [exact S|].
  change (run s (e :: es)) with (run (step s e) es).
  apply IH; [by apply step_links|by apply step_session].
Qed.

Lemma initial_session : session_inv initial.
Proof. repeat split; done. Qed.

(** A session has exactly one live peer and the landing page has none.
    After every sequence of clicks and events: on the landing page no peer
    is alive and nothing is referenced; on the share and view pages the peer
    [peerRef] names is alive, was created with the handlers of the current
    role, and is the only one alive. *)
Theorem session_has_its_peer (es : list Event) :
  (mode (hooks (run initial es)) = landing →
     (∀ p, ¬ peer_live (run initial es) p)
     ∧ connectionRef (refs (run initial es)) = None
     ∧ callRef (refs (run initial es)) = None
     ∧ videoRef (refs (run initial es)) = None)
  ∧ (mode (hooks (run initial es)) ≠ landing →
     ∃ p o, peerRef (refs (run initial es)) = Some p
            ∧ peers (world (run initial es)) !! p = Some o
            ∧ peer_destroyed o = false
            ∧ peer_mode o = mode (hooks (run initial es))
            ∧ ∀ q, peer_live (run initial es) q → q = p).
Proof.
  pose proof (run_links es initial initial_links) as (Lp & _ & Ls).
  pose proof (run_session es initial initial_links initial_session)
    as (S1 & S2 & S3).
  split.
  - intros Hl. destruct (S1 Hl) as (Hc & Hcr & Hk & Hv). repeat split; try done.
    intros p (o & Ho & Hd). destruct (Lp p o Ho Hd) as (_ & [c Hc'] & _).
    congruence.
  - intros Hn. destruct (Ls Hn) as (p & c & Hc & Hp).
    destruct (S3 p c Hc) as (o & Ho & Hd).
    destruct (Lp p o Ho Hd) as (_ & _ & Hmo).
    exists p, o. repeat split; try done.
    intros q (o' & Ho' & Hd'). destruct (Lp q o' Ho' Hd') as (E & _). congruence.
Qed.

Lemma session_has_its_peer_witness :
  (∃ p o, peerRef (refs (run initial sharing_session)) = Some p
          ∧ peers (world (run initial sharing_session)) !! p = Some o
          ∧ peer_destroyed o = false
          ∧ peer_mode o = mode (hooks (run initial sharing_session))
          ∧ ∀ q, peer_live (run initial sharing_session) q → q = p)
  ∧ (∀ p, ¬ peer_live (run initial (sharing_session ++ [ClickDisconnect])) p).
Proof.
  split.
  - apply (session_has_its_peer sharing_session). vm_compute. discriminate.
  - apply (session_has_its_peer (sharing_session ++ [ClickDisconnect])).
    vm_compute. reflexivity.
Defined.

(** ** Stopping the capture and losing the connection *)

Lemma stopScreenShare_releases cap s :
  (∀ m, cap = Some m → is_Some (streams (world s) !! m) →
        tracks_are_stopped (stopScreenShare cap s) m)
  ∧ (∀ k, callRef (refs s) = Some k → is_Some (calls (world s) !! k) →
          call_is_closed (stopScreenShare cap s) k)
  ∧ (∀ v, videoRef (refs s) = Some (Some v) → is_Some (streams (world s) !! v) →
          tracks_are_stopped (stopScreenShare cap s) v)
  ∧ conns (world (stopScreenShare cap s)) = conns (world s)
  ∧ peers (world (stopScreenShare cap s)) = peers (world s).
Proof.
  open_state s. unfold call_is_closed, tracks_are_stopped.
  destruct cap, vr as [[?|]|], kr;
    lazy -[alter list_alter lookup list_lookup alloc length is_Some];
    repeat split; intros; simplify_eq; released.
Qed.

(** "Stop Sharing" releases the capture in every state the component can
    reach in share mode with a stream: the handle is cleared, the tracks of
    the stream and of the preview are stopped, the preview is unbound, the
    referenced call is closed and [callRef] cleared; the connection and
    [connectionStatus] are left as they are. *)
Theorem stop_sharing_releases (es : list Event) (m : nat) :
  mode (hooks (run initial es)) = share →
  stream (hooks (run initial es)) = Some m →
  let s := run initial es in
  let s' := step s ClickStopSharing in
  stream (hooks s') = None
  ∧ tracks_are_stopped s' m
  ∧ (∀ v, videoRef (refs s) = Some (Some v) → tracks_are_stopped s' v)
  ∧ videoRef (refs s') = Some None
  ∧ (∀ k, callRef (refs s) = Some k → call_is_closed s' k)
  ∧ callRef (refs s') = None
  ∧ connectionStatus (hooks s') = connectionStatus (hooks s)
  ∧ connectionRef (refs s') = connectionRef (refs s)
  ∧ conns (world s') = conns (world s)
  ∧ mode (hooks s') = share.
Proof.
  intros Hm Hs s s'.
  pose proof (run_wf es initial initial_wf) as (_ & W2 & W3 & W4 & _).
  pose proof (run_session es initial initial_links initial_session)
    as (_ & S2 & _).
  fold s in W2, W3, W4, S2, Hm, Hs.
  assert (s' = stopScreenShare (Some m) s) as ->.
  { subst s'. unfold step, handle. rewrite decide_True.
    - rewrite Hs. apply commit_same, stopScreenShare_mode.
    - split; [done|]. by rewrite Hs. }
  destruct (stopScreenShare_releases (Some m) s) as (R1 & R2 & R3 & R4 & _).
  rewrite stopScreenShare_hooks, stopScreenShare_refs. simpl.
  repeat split; try done.
  - apply R1; [done|]. by apply wf_is_Some, W3.
  - intros v Hv. by apply R3, wf_is_Some, W4.
  - destruct (videoRef (refs s)) eqn:Ev; [done|]. destruct S2; [|done].
    by rewrite Hm.
  - intros k Hk. by apply R2, wf_is_Some, W2.
Qed.

Lemma stop_sharing_releases_witness :
  let s := run initial sharing_session in
  let s' := step s ClickStopSharing in
  stream (hooks s') = None
  ∧ tracks_are_stopped s' 0
  ∧ (∀ v, videoRef (refs s) = Some (Some v) → tracks_are_stopped s' v)
  ∧ videoRef (refs s') = Some None
  ∧ (∀ k, callRef (refs s) = Some k → call_is_closed s' k)
  ∧ callRef (refs s') = None
  ∧ connectionStatus (hooks s') = connectionStatus (hooks s)
  ∧ connectionRef (refs s') = connectionRef (refs s)
  ∧ conns (world s') = conns (world s)
  ∧ mode (hooks s') = share.
Proof.
  apply (stop_sharing_releases sharing_session 0); vm_compute; reflexivity.
Defined.

(** When a connection the sharer accepted closes, in any state the
    component can reach: [connectionStatus] becomes disconnected, the
    referenced call is closed and [callRef] cleared, the stream bound to the
    preview is stopped and unbound; the role is kept and [connectionRef]
    keeps naming what it named. *)
Theorem sharer_close_cascade (es : list Event) (c : nat) (o : ConnObj) :
  conns (world (run initial es)) !! c = Some o →
  conn_role o = inbound →
  let s := run initial es in
  let s' := step s (ConnClose c) in
  connectionStatus (hooks s') = disconnected
  ∧ conn_is_closed s' c
  ∧ (∀ k, callRef (refs s) = Some k → call_is_closed s' k)
  ∧ callRef (refs s') = None
  ∧ (∀ v, videoRef (refs s) = Some (Some v) → tracks_are_stopped s' v)
  ∧ (∀ v, videoRef (refs s') ≠ Some (Some v))
  ∧ mode (hooks s') = mode (hooks s)
  ∧ connectionRef (refs s') = connectionRef (refs s)
  ∧ peers (world s') = peers (world s).
Proof.
  intros Hc Hr s s'.
  pose proof (run_wf es initial initial_wf) as (_ & W2 & _ & W4 & _).
  fold s in W2, W4, Hc.
  set (s0 := setConnectionStatus disconnected (closeConn c s)).
  assert (s' = stopScreenShare (conn_stream o) s0) as ->.
  { subst s'. unfold step, handle. rewrite Hc. unfold on_conn_close.
    rewrite Hr. apply commit_same. by rewrite stopScreenShare_mode. }
  destruct (stopScreenShare_releases (conn_stream o) s0) as (_ & R2 & R3 & R4 & R5).
  rewrite stopScreenShare_hooks, stopScreenShare_refs.
  repeat split.
  - by destruct (conn_stream o).
  - unfold conn_is_closed. rewrite R4. simpl.
    apply alter_establish; [by intros []|by eexists].
  - intros k Hk. by apply R2, wf_is_Some, W2.
  - intros v Hv. by apply R3, wf_is_Some, W4.
  - intros v. simpl. by destruct (videoRef (refs s)).
  - by destruct (conn_stream o).
  - by rewrite R5.
Qed.

Lemma sharer_close_cascade_witness :
  let s := run initial sharing_session in
  let s' := step s (ConnClose 0) in
  connectionStatus (hooks s') = disconnected
  ∧ conn_is_closed s' 0
  ∧ (∀ k, callRef (refs s) = Some k → call_is_closed s' k)
  ∧ callRef (refs s') = None
  ∧ (∀ v, videoRef (refs s) = Some (Some v) → tracks_are_stopped s' v)
  ∧ (∀ v, videoRef (refs s') ≠ Some (Some v))
  ∧ mode (hooks s') = mode (hooks s)
  ∧ connectionRef (refs s') = connectionRef (refs s)
  ∧ peers (world s') = peers (world s).
Proof.
  apply (sharer_close_cascade sharing_session 0
           (mkConn inbound None "viewer" conn_open)); vm_compute; reflexivity.
Defined.

(** When a connection the viewer made closes, [connectionStatus] becomes
    disconnected and the video element is unbound, and that is all: the
    received stream is not stopped, the call is neither closed nor
    forgotten, and [connectionRef] keeps naming the closed connection. *)
Theorem viewer_close_unbinds (s : State) (c : nat) (o : ConnObj) :
  conns (world s) !! c = Some o →
  conn_role o = outbound →
  let s' := step s (ConnClose c) in
  hooks s' = hooks (setConnectionStatus disconnected s)
  ∧ conn_is_closed s' c
  ∧ videoRef (refs s')
    = match videoRef (refs s) with Some _ => Some None | None => None end
  ∧ callRef (refs s') = callRef (refs s)
  ∧ connectionRef (refs s') = connectionRef (refs s)
  ∧ calls (world s') = calls (world s)
  ∧ streams (world s') = streams (world s).
Proof.
  intros Hc Hr s'. subst s'. unfold step, handle. rewrite Hc.
  unfold on_conn_close. rewrite Hr.
  rewrite commit_same by (simpl; by destruct (videoRef (refs s))).
  assert (conn_is_closed (closeConn c s) c) as Hcl.
  { apply alter_establish; [by intros []|by eexists]. }
  simpl. destruct (videoRef (refs s)) eqn:Ev; simpl; rewrite ?Ev;
    repeat split; exact Hcl.
Qed.

Lemma viewer_close_unbinds_witness :
  let s := run viewer_connected [PeerCall 0; CallStream 0] in
  let s' := step s (ConnClose 0) in
  hooks s' = hooks (setConnectionStatus disconnected s)
  ∧ conn_is_closed s' 0
  ∧ videoRef (refs s') = Some None
  ∧ callRef (refs s') = Some 0
  ∧ connectionRef (refs s') = Some 0
  ∧ calls (world s') = calls (world s)
  ∧ streams (world s') = streams (world s).
Proof.
  apply (viewer_close_unbinds (run viewer_connected [PeerCall 0; CallStream 0])
           0 (mkConn outbound None "abc" conn_open)); vm_compute; reflexivity.
Defined.

(** ** What is released stays released *)

Lemma release_kept_refl s : release_kept s s.
Proof. by repeat split. Qed.

Lemma release_kept_trans s1 s2 s3 :
  release_kept s1 s2 → release_kept s2 s3 → release_kept s1 s3.
Proof.
  intros (A1 & A2 & A3 & A4) (B1 & B2 & B3 & B4). repeat split; eauto.
Qed.

Lemma release_kept_same s s' : stores_of s' = stores_of s → release_kept s s'.
Proof.
  unfold stores_of. intros H. injection H as Hp Hc Hk Hs.
  unfold release_kept, peer_is_destroyed, conn_is_closed, call_is_closed,
    tracks_are_stopped. by rewrite Hp, Hc, Hk, Hs.
Qed.

Lemma alloc_keep {A} (x : A) (P : A → Prop) (k : nat) (l : list A) :
  (∃ o, l !! k = Some o ∧ P o) → ∃ o, alloc x l !! k = Some o ∧ P o.
Proof. intros (o & Ho & HP). exists o. split; [by apply lookup_alloc_old|done]. Qed.

Ltac rk_small :=
  unfold release_kept, peer_is_destroyed, conn_is_closed, call_is_closed,
    tracks_are_stopped; simpl;
  repeat split; intros ? ?; try done;
  first [ apply alter_keep; [by intros []|done] | by apply alloc_keep ].

Lemma destroyPeer_kept p s : release_kept s (destroyPeer p s).
Proof. rk_small. Qed.
Lemma closeConn_kept c s : release_kept s (closeConn c s).
Proof. rk_small. Qed.
Lemma closeCall_kept k s : release_kept s (closeCall k s).
Proof. rk_small. Qed.
Lemma stopTracks_kept m s : release_kept s (stopTracks m s).
Proof. rk_small. Qed.
Lemma new_peer_kept x s : release_kept s (upd_peers (alloc x) s).
Proof. rk_small. Qed.
Lemma new_conn_kept x s : release_kept s (upd_conns (alloc x) s).
Proof. rk_small. Qed.
Lemma new_call_kept x s : release_kept s (upd_calls (alloc x) s).
Proof. rk_small. Qed.
Lemma new_stream_kept x s : release_kept s (upd_streams (alloc x) s).
Proof. rk_small. Qed.

Ltac rk_chain :=
  repeat first
    [ apply release_kept_refl
    | apply destroyPeer_kept | apply closeConn_kept | apply closeCall_kept
    | apply stopTracks_kept | apply new_peer_kept | apply new_conn_kept
    | apply new_call_kept | apply new_stream_kept
    | (apply release_kept_same; reflexivity)
    | eapply release_kept_trans; [|eassumption] ].

Lemma stopScreenShare_kept cap s : release_kept s (stopScreenShare cap s).
Proof.
  unfold stopScreenShare.
  set (s1 := match cap with Some m => _ | None => s end).
  assert (release_kept s s1) as K1.
  { subst s1. destruct cap; [|apply release_kept_refl].
    apply (release_kept_trans _ (stopTracks n s)); rk_chain. }
  clearbody s1.
  set (s2 := match videoRef (refs s1) with Some (Some m) => _ | _ => s1 end).
  assert (release_kept s s2) as K2.
  { apply (release_kept_trans _ s1); [done|]. subst s2.
    destruct (videoRef (refs s1)) as [[m|]|]; try apply release_kept_refl.
    apply (release_kept_trans _ (stopTracks m s1)); rk_chain. }
  clearbody s2. apply (release_kept_trans _ s2); [done|].
  destruct (callRef (refs s2)); [|apply release_kept_refl].
  apply (release_kept_trans _ (closeCall n s2)); rk_chain.
Qed.

Lemma startScreenShare_resolved_kept cap s :
  release_kept s (startScreenShare_resolved cap s).
Proof.
  unfold startScreenShare_resolved.
  set (s3 := match videoRef _ with Some _ => _ | None => _ end).
  assert (release_kept s s3) as K3.
  { apply (release_kept_trans _ (upd_streams (alloc (mkStream (Some cap) false)) s));
      [rk_chain|].
    subst s3. simpl. destruct (videoRef (refs s)); rk_chain. }
  clearbody s3. apply (release_kept_trans _ s3); [done|].
  destruct (viewer_ready s3); [|rk_chain].
  apply (release_kept_trans _ (upd_calls (alloc (mkCall placed false false)) s3));
    rk_chain.
Qed.

Lemma connectToPeer_kept s : release_kept s (connectToPeer s).
Proof.
  unfold connectToPeer. case_decide; [apply release_kept_refl|].
  destruct (peerRef (refs s)); [|apply release_kept_refl].
  set (s1 := setError None (setConnectionStatus connecting s)).
  set (s2 := match connectionRef (refs s1) with Some c => _ | None => s1 end).
  assert (release_kept s s2) as K2.
  { subst s2. destruct (connectionRef (refs s1)).
    - apply (release_kept_trans _ s1); rk_chain.
    - rk_chain. }
  clearbody s2. apply (release_kept_trans _ s2); [done|].
  apply (release_kept_trans _
           (upd_conns (alloc (mkConn outbound None (remotePeerId (hooks s)) conn_pending)) s2));
    rk_chain.
Qed.

Lemma disconnect_kept s : release_kept s (disconnect s).
Proof.
  unfold disconnect.
  set (s1 := match connectionRef (refs s) with Some c => _ | None => s end).
  assert (release_kept s s1) as K1.
  { subst s1. destruct (connectionRef (refs s)); [|rk_chain].
    apply (release_kept_trans _ (closeConn n s)); rk_chain. }
  clearbody s1.
  set (s2 := match callRef (refs s1) with Some k => _ | None => s1 end).
  assert (release_kept s s2) as K2.
  { apply (release_kept_trans _ s1); [done|]. subst s2.
    destruct (callRef (refs s1)); [|rk_chain].
    apply (release_kept_trans _ (closeCall n s1)); rk_chain. }
  clearbody s2.
  apply (release_kept_trans _ (stopScreenShare (stream (hooks s)) s2)); [|rk_chain].
  apply (release_kept_trans _ s2); [done|apply stopScreenShare_kept].
Qed.

Lemma effect_cleanup_kept p cap s : release_kept s (effect_cleanup p cap s).
Proof.
  unfold effect_cleanup.
  set (s1 := match connectionRef (refs s) with Some c => _ | None => s end).
  assert (release_kept s s1) as K1.
  { subst s1. destruct (connectionRef (refs s)); rk_chain. }
  clearbody s1.
  set (s2 := match callRef (refs s1) with Some k => _ | None => s1 end).
  assert (release_kept s s2) as K2.
  { apply (release_kept_trans _ s1); [done|]. subst s2.
    destruct (callRef (refs s1)); rk_chain. }
  clearbody s2.
  apply (release_kept_trans _ (stopScreenShare cap s2)); [|rk_chain].
  apply (release_kept_trans _ s2); [done|apply stopScreenShare_kept].
Qed.

Lemma effect_body_kept m cap s : release_kept s (effect_body m cap s).
Proof.
  unfold effect_body. case_decide; [rk_chain|].
  set (s1 := match peerRef (refs s) with Some p => _ | None => s end).
  assert (release_kept s s1) as K1.
  { subst s1. destruct (peerRef (refs s)); rk_chain. }
  clearbody s1.
  apply (release_kept_trans _ (upd_peers (alloc (mkPeer m cap false)) s1));
    [|rk_chain].
  apply (release_kept_trans _ s1); [done|rk_chain].
Qed.

Lemma commit_kept old s : release_kept s (commit old s).
Proof.
  unfold commit. case_decide; [apply release_kept_refl|].
  set (s1 := set_videoRef _ s).
  set (s2 := match cleanup s1 with Some (p, c) => effect_cleanup p c s1 | None => s1 end).
  assert (release_kept s s2) as K2.
  { apply (release_kept_trans _ s1); [rk_chain|]. subst s2.
    destruct (cleanup s1) as [[p c]|]; [apply effect_cleanup_kept|rk_chain]. }
  clearbody s2. apply (release_kept_trans _ s2); [done|apply effect_body_kept].
Qed.

Lemma on_peer_kept p f s :
  (∀ o s', release_kept s' (f o s')) → release_kept s (on_peer p f s).
Proof.
  intros H. unfold on_peer. destruct (peers (world s) !! p) as [o|]; [|rk_chain].
  destruct (peer_destroyed o); [rk_chain|apply H].
Qed.

Lemma handle_kept s e : release_kept s (handle s e).
Proof.
  destruct e; unfold handle.
  - (* ClickShare *) case_decide; rk_chain.
  - (* ClickView *) case_decide; rk_chain.
  - (* TypeRemoteId *) case_decide; rk_chain.
  - (* ClickConnect *) case_decide; [apply connectToPeer_kept|rk_chain].
  - (* ClickStartSharing *)
    case_decide; [|rk_chain]. unfold startScreenShare.
    apply (release_kept_trans _ (stopScreenShare (stream (hooks s)) s));
      [apply stopScreenShare_kept|rk_chain].
  - (* ClickStopSharing *) case_decide; [apply stopScreenShare_kept|rk_chain].
  - (* ClickDisconnect *) case_decide; [apply disconnect_kept|rk_chain].
  - (* ClickCopy *)
    case_decide; [|rk_chain]. unfold copyPeerId. case_decide; rk_chain.
  - (* PeerOpen *) apply on_peer_kept. intros; rk_chain.
  - (* PeerError *) apply on_peer_kept. intros; rk_chain.
  - (* PeerConnection *)
    apply on_peer_kept. intros o s'. destruct (peer_mode o); rk_chain.
  - (* PeerCall *)
    apply on_peer_kept. intros o s'. destruct (peer_mode o); rk_chain.
  - (* ConnOpen: only a pending connection opens *)
    destruct (conns (world s) !! c) as [o|] eqn:Ho; [|rk_chain].
    case_decide as Hph; [|rk_chain].
    unfold release_kept, peer_is_destroyed, conn_is_closed, call_is_closed,
      tracks_are_stopped. simpl. repeat split; try done.
    intros c' (o' & Ho' & Hc'). destruct (decide (c = c')) as [->|Hne].
    + congruence.
    + exists o'. by rewrite list_lookup_alter_ne.
  - (* ConnClose *)
    destruct (conns (world s) !! c) as [o|]; [|rk_chain].
    apply (release_kept_trans _ (closeConn c s)); [rk_chain|].
    unfold on_conn_close. destruct (conn_role o).
    + apply (release_kept_trans _ (setConnectionStatus disconnected (closeConn c s)));
        [rk_chain|apply stopScreenShare_kept].
    + simpl. destruct (videoRef (refs s)); rk_chain.
  - (* ConnError *)
    destruct (conns (world s) !! c) as [o|]; [|rk_chain].
    unfold on_conn_error. destruct (conn_role o); rk_chain.
  - (* CallStream *)
    destruct (calls (world s) !! k) as [o|]; [|rk_chain].
    destruct (call_role o); [rk_chain|]. unfold on_call_stream.
    apply (release_kept_trans _ (upd_streams (alloc (mkStream None false)) s));
      [rk_chain|]. simpl. destruct (videoRef (refs s)); rk_chain.
  - (* CallClose *)
    destruct (calls (world s) !! k) as [o|]; [|rk_chain].
    apply (release_kept_trans _ (closeCall k s)); [rk_chain|].
    destruct (call_role o); [rk_chain|]. unfold on_call_close. simpl.
    destruct (videoRef (refs s)); rk_chain.
  - (* CallError *) destruct (calls (world s) !! k); rk_chain.
  - (* AcquireOk *)
    destruct (acquires (world s) !! a) as [o|]; [|rk_chain].
    destruct (acq_settled o); [rk_chain|].
    set (s0 := upd_acquires _ s).
    apply (release_kept_trans _ s0); [rk_chain|].
    apply startScreenShare_resolved_kept.
  - (* AcquireFail *)
    destruct (acquires (world s) !! a) as [o|]; [|rk_chain].
    destruct (acq_settled o); rk_chain.
  - (* TrackEnded *)
    destruct (streams (world s) !! m) as [o|]; [|rk_chain].
    destruct (tracks_stopped o); [rk_chain|].
    apply (release_kept_trans _ (stopTracks m s)); [rk_chain|].
    destruct (onended o); [apply stopScreenShare_kept|rk_chain].
  - (* ClipboardOk *) destruct (clip_pending (world s)); rk_chain.
  - (* ClipboardFail *) destruct (clip_pending (world s)); rk_chain.
  - (* CopiedTimeout *) destruct (copied_timers (world s)); rk_chain.
Qed.

Lemma step_kept s e : release_kept s (step s e).
Proof.
  unfold step. apply (release_kept_trans _ (handle s e));
    [apply handle_kept|apply commit_kept].
Qed.

(** Nothing the component released is ever taken back: from any state and
    through any sequence of clicks and events, a destroyed peer stays
    destroyed, a closed connection stays closed (only a pending connection
    can open), a closed call stays closed and stopped tracks stay stopped. *)
Theorem releases_are_permanent (s : State) (es : list Event) :
  (∀ p, peer_is_destroyed s p → peer_is_destroyed (run s es) p)
  ∧ (∀ c, conn_is_closed s c → conn_is_closed (run s es) c)
  ∧ (∀ k, call_is_closed s k → call_is_closed (run s es) k)
  ∧ (∀ m, tracks_are_stopped s m → tracks_are_stopped (run s es) m).
Proof.
  change (release_kept s (run s es)).
  induction es as [|e es IH] using rev_ind; [apply release_kept_refl|].
  rewrite run_snoc. apply (release_kept_trans _ (run s es)); [exact IH|].
  apply step_kept.
Qed.

Lemma releases_are_permanent_witness :
  peer_is_destroyed session_over 0
  ∧ peer_is_destroyed
      (run session_over [ClickShare; PeerOpen 1 "def"; PeerOpen 0 "abc"]) 0.
Proof.
  assert (peer_is_destroyed session_over 0) as H.
  { eexists. split; vm_compute; reflexivity. }
  split; [exact H|].
  by apply (releases_are_permanent session_over
              [ClickShare; PeerOpen 1 "def"; PeerOpen 0 "abc"]).
Defined.
